(** * Browser dashboard of windows-artifacts-parser: model and properties

    The repository's client side consists of two scripts that are run on
    [DOMContentLoaded]: the artifact dashboard (217 lines, the unnamed
    source part) and [web/correlation.js].  Both fetch a JSON collection
    and render it into a table, drive a modal PDF export form, and keep a
    light/dark theme in [localStorage].

    The development is a shallow embedding:
    - [Js]: JSON values as the scripts see them (property access,
      truthiness, string conversion);
    - [Regex]: a backtracking matcher for the regular expression literals
      of the scripts;
    - [Dom]: the part of the page the scripts touch, and a small monad of
      asynchronous programs ([await], [try]/[catch]/[finally], calls that
      are not awaited);
    - [Dashboard], [Correlation]: the two scripts, function by function. *)

From Stdlib Require Import ZArith Ascii DecimalString Lia.
From Stdlib Require String.
From stdpp Require Import gmap strings list.

#[local] Set Warnings "-register-all".

(** ** JavaScript values *)

Module Js.

(** What [JSON.parse] can produce, plus [undefined].  Numbers are the
    integers (identifiers, counters); [NaN] cannot come out of JSON. *)
Inductive value : Type :=
| VUndefined
| VNull
| VBool (b : bool)
| VNum (z : Z)
| VStr (s : string)
| VArr (l : list value)
| VObj (m : gmap string value).

(** An exception object; only [message] is ever read. *)
Record error : Type := Error { err_name : string; err_message : string }.

(** The wording of an engine-raised [TypeError] is engine specific. *)
Definition TypeError (what : string) : error :=
  {| err_name := "TypeError"; err_message := what |}.

(** ToBoolean. *)
Definition truthy (v : value) : bool :=
  match v with
  | VUndefined | VNull => false
  | VBool b => b
  | VNum z => negb (z =? 0)%Z
  | VStr s => negb (String.eqb s "")
  | VArr _ | VObj _ => true
  end.

(** [a || b]. *)
Definition or_else (a b : value) : value := if truthy a then a else b.

(** ToString, as performed by template literals and DOM string setters,
    on the values that have a string (see [printable] below).  An array
    prints its elements joined by commas, [null] and [undefined] elements
    as nothing. *)
Fixpoint to_string (v : value) : string :=
  match v with
  | VUndefined => "undefined"
  | VNull => "null"
  | VBool b => if b then "true" else "false"
  | VNum z => NilZero.string_of_int (Z.to_int z)
  | VStr s => s
  | VArr l =>
      String.concat ","
        (List.map (fun x => match x with
                            | VUndefined | VNull => ""
                            | _ => to_string x
                            end) l)
  | VObj _ => "[object Object]"
  end.

(** The values on which [to_string] is the ToString of the language.  A
    number is printed in decimal digits when it is an integer that a
    double holds exactly, up to 2^53 in size (larger ones are rounded by
    [JSON.parse], and from 10^21 on they print with an exponent).  An
    object that came out of JSON has a string, "[object Object]", unless
    it has a field [toString] of its own: such a field is never callable,
    and ToString throws a [TypeError].  An array has a string when its
    elements have one. *)
Fixpoint printable (v : value) : bool :=
  match v with
  | VUndefined | VNull | VBool _ | VStr _ => true
  | VNum z => (Z.abs z <=? 9007199254740992)%Z
  | VArr l => forallb printable l
  | VObj m => match m !! "toString" with
              | Some _ => false
              | None => true
              end
  end.

(** [v === z] for a number literal and [v === s] for a string literal. *)
Definition strict_eq_num (v : value) (z : Z) : bool :=
  match v with VNum z' => (z' =? z)%Z | _ => false end.

Definition strict_eq_str (v : value) (s : string) : bool :=
  match v with VStr s' => String.eqb s' s | _ => false end.

(** [v.name] for the property names the scripts read ([id], [status],
    [message], [length], ...): an own property of an object, [length] of
    an array or a string, [undefined] on the other primitives, and a
    [TypeError] on [null] and [undefined].  None of the names read is
    inherited from a prototype.  The message of the [TypeError] is the
    one of V8; other engines word it differently, and no property below
    depends on the wording. *)
Definition get_prop (v : value) (name : string) : error + value :=
  match v with
  | VUndefined =>
      inl (TypeError ("Cannot read properties of undefined (reading '"
                        +:+ name +:+ "')"))
  | VNull =>
      inl (TypeError ("Cannot read properties of null (reading '"
                        +:+ name +:+ "')"))
  | VObj m => inr (default VUndefined (m !! name))
  | VArr l =>
      inr (if String.eqb name "length" then VNum (Z.of_nat (length l))
           else VUndefined)
  | VStr s =>
      inr (if String.eqb name "length" then VNum (Z.of_nat (String.length s))
           else VUndefined)
  | VBool _ | VNum _ => inr VUndefined
  end.

(** [Object.fromEntries(entries)]: a later entry overwrites an earlier
    one with the same key. *)
Definition fromEntries (entries : list (string * string)) : value :=
  VObj (foldl (fun m kv => <[kv.1 := VStr kv.2]> m) ∅ entries).

End Js.

(** ** Regular expressions *)

Module Regex.

(** The constructs that occur in the regular expression literals of the
    scripts.  Header values are byte strings, so a character is a byte. *)
Inductive regex : Type :=
| Lit (cs : list ascii)                    (* a run of literal characters *)
| Class (negated : bool) (cs : list ascii) (* [...] and [^...] *)
| Dot                                      (* . *)
| Seq (r1 r2 : regex)
| Alt (r1 r2 : regex)                      (* r1|r2 *)
| Star (greedy : bool) (r : regex)         (* r* and r*? *)
| Group (n : nat) (r : regex)              (* the n-th capturing group *)
| Backref (n : nat).                       (* \n *)

Abbreviation captures := (gmap nat (list ascii)).

Definition in_class (negated : bool) (cs : list ascii) (c : ascii) : bool :=
  xorb negated (existsb (Ascii.eqb c) cs).

Definition LF : ascii := "010"%char.
Definition CR : ascii := "013"%char.

(** [.] matches anything but a line terminator. *)
Definition line_terminator (c : ascii) : bool :=
  Ascii.eqb c LF || Ascii.eqb c CR.

Fixpoint strip_prefix (p s : list ascii) : option (list ascii) :=
  match p, s with
  | [], _ => Some s
  | a :: p', b :: s' => if Ascii.eqb a b then strip_prefix p' s' else None
  | _ :: _, [] => None
  end.

(** The iterations of a star.  [step] matches one iteration; an
    iteration that consumes no input is rejected, so the number of
    iterations left is bounded by the length of the input, which is the
    fuel.  A greedy star tries one more iteration before it tries the
    continuation [k], a lazy star tries [k] first. *)
Fixpoint star_loop
    (step : list ascii -> captures ->
            (list ascii -> captures -> option captures) -> option captures)
    (greedy : bool) (k : list ascii -> captures -> option captures)
    (fuel : nat) (s : list ascii) (caps : captures) : option captures :=
  let again :=
    match fuel with
    | O => None
    | S fuel' =>
        step s caps
          (fun s' caps' =>
             if length s' <? length s
             then star_loop step greedy k fuel' s' caps'
             else None)
    end in
  if greedy then
    match again with Some c => Some c | None => k s caps end
  else
    match k s caps with Some c => Some c | None => again end.

(** Backtracking matcher in continuation-passing style: [matcher r s caps k]
    matches [r] at the head of [s] and hands the rest of the input and
    the captures to [k]; when [k] fails the next way of matching [r] is
    tried, in the order of the ECMAScript semantics (left alternative
    first, then the right one). *)
Fixpoint matcher (r : regex) (s : list ascii) (caps : captures)
    (k : list ascii -> captures -> option captures) : option captures :=
  match r with
  | Lit cs =>
      match strip_prefix cs s with
      | Some s' => k s' caps
      | None => None
      end
  | Class negated cs =>
      match s with
      | c :: s' => if in_class negated cs c then k s' caps else None
      | [] => None
      end
  | Dot =>
      match s with
      | c :: s' => if line_terminator c then None else k s' caps
      | [] => None
      end
  | Seq r1 r2 => matcher r1 s caps (fun s' caps' => matcher r2 s' caps' k)
  | Alt r1 r2 =>
      match matcher r1 s caps k with
      | Some c => Some c
      | None => matcher r2 s caps k
      end
  | Star greedy r0 => star_loop (matcher r0) greedy k (length s) s caps
  | Group n r0 =>
      matcher r0 s caps
        (fun s' caps' => k s' (<[n := take (length s - length s') s]> caps'))
  | Backref n =>
      match caps !! n with
      | None => k s caps
      | Some w =>
          match strip_prefix w s with
          | Some s' => k s' caps
          | None => None
          end
      end
  end.

(** [r.exec(s)] without the [g] flag: the leftmost position at which [r]
    matches; [null] is [None]. *)
Fixpoint exec_list (r : regex) (s : list ascii) : option captures :=
  match matcher r s ∅ (fun _ caps => Some caps) with
  | Some caps => Some caps
  | None =>
      match s with
      | [] => None
      | _ :: s' => exec_list r s'
      end
  end.

Definition exec (r : regex) (s : string) : option captures :=
  exec_list r (String.list_ascii_of_string s).

(** [matches[n]]: [undefined] is [None]. *)
Definition group (n : nat) (caps : captures) : option string :=
  String.string_of_list_ascii <$> caps !! n.

(** [s.replace(r, '')] for a regular expression with the [g] flag: the
    matches of [r] are deleted from left to right; where [r] does not
    match, or matches the empty string, one character is kept and the
    search resumes after it.  Every step consumes input, so the length of
    the input is fuel enough. *)
Fixpoint delete_matches (r : regex) (fuel : nat) (s : list ascii)
    : list ascii :=
  match fuel, s with
  | _, [] => []
  | O, _ :: _ => s
  | S fuel', c :: s' =>
      match matcher (Group 0 r) s ∅ (fun _ caps => Some caps) with
      | Some caps =>
          match length (default [] (caps !! 0)) with
          | O => c :: delete_matches r fuel' s'
          | S n => delete_matches r fuel' (drop (S n) s)
          end
      | None => c :: delete_matches r fuel' s'
      end
  end.

Definition replace_all_empty (r : regex) (s : string) : string :=
  String.string_of_list_ascii
    (delete_matches r (String.length s) (String.list_ascii_of_string s)).

(** [s.indexOf(pat) !== -1]. *)
Definition includes (s pat : string) : bool :=
  match String.index 0 pat s with Some _ => true | None => false end.

Definition dquote : ascii := "034"%char.
Definition squote : ascii := "'"%char.

(** The literal [filenameRegex] of both export handlers: the word
    filename; then [^;=\n] any number of times; then an equals sign; then
    group 1, which is either group 2 (a single or a double quote), a lazy
    run of [.] and a back-reference to group 2, or else a greedy run of
    [^;\n]. *)
Definition filenameRegex : regex :=
  Seq (Lit (String.list_ascii_of_string "filename"))
   (Seq (Star true (Class true [";"%char; "="%char; LF]))
    (Seq (Lit ["="%char])
      (Group 1
        (Alt
          (Seq (Group 2 (Class false [squote; dquote]))
            (Seq (Star false Dot) (Backref 2)))
          (Star true (Class true [";"%char; LF])))))).

End Regex.


(** ** The page and asynchronous programs *)

Module Dom.
Import Js.

(** A table cell and a table row.  [insertCell] creates a cell of column
    span 1 with no text. *)
Record cell : Type := Cell { colspan : nat; text : string }.
Abbreviation row := (list cell).

(** An HTTP request as passed to [fetch].  The body is the value handed to
    [JSON.stringify]. *)
Record request : Type := Request {
  url : string;
  method : string;
  content_type : option string;
  body : option value
}.

(** What the scripts read from a response: [ok], the value of
    [headers.get('Content-Disposition')] ([null] is [None]), and what
    [blob()] and [json()] settle to: [blob()] rejects when the body
    cannot be read to its end, [json()] also when the body is not JSON. *)
Record response : Type := Response {
  ok : bool;
  content_disposition : option string;
  blob : error + string;
  json : error + value
}.

(** How the promise returned by [fetch] settles. *)
Inductive reply : Type :=
| Rejected (e : error)
| Resolved (r : response).

(** Calls that leave the document. *)
Inductive effect : Type :=
| EFetch (req : request)
| EConsoleError (label : string) (e : error)
| EAlert (msg : string)
| EConfirm (msg : string) (answer : bool)
| EListen (target type : string)
| EStorageGet (key : string)
| EStorageSet (key v : string)
| ECreateObjectURL (data : string)
| EAnchorClick (download : string) (data : string)
| ERevokeObjectURL (data : string)
| ENavigate (href : string)
| EWindowOpen (href target : string).

Record Page : Type := {
  tbody : list row;                     (* the rows of the table body *)
  statusHTML : string;                  (* the markup last assigned to statusSection.innerHTML *)
  statusDisplay : string;               (* statusSection.style.display *)
  modalDisplay : string;                (* pdfReportModal.style.display *)
  form : list (string * string);        (* controls of pdfReportForm: name and current value *)
  folderPath : string;                  (* folderPathInput.value *)
  dataTheme : option string;            (* the data-theme attribute of the body *)
  toggleChecked : bool;                 (* themeToggle.checked *)
  storage : gmap string string;         (* localStorage *)
  clock : Z;                            (* the current time, in milliseconds *)
  timers : list Z;                      (* due times of the pending setTimeout callbacks *)
  journal : list effect                 (* what the script did to the browser, oldest first *)
}.

Definition set_tbody (x : list row) (pg : Page) : Page :=
  {| tbody := x; statusHTML := statusHTML pg;
     statusDisplay := statusDisplay pg; modalDisplay := modalDisplay pg;
     form := form pg; folderPath := folderPath pg;
     dataTheme := dataTheme pg; toggleChecked := toggleChecked pg;
     storage := storage pg; clock := clock pg; timers := timers pg;
     journal := journal pg |}.

Definition set_statusHTML (x : string) (pg : Page) : Page :=
  {| tbody := tbody pg; statusHTML := x; statusDisplay := statusDisplay pg;
     modalDisplay := modalDisplay pg; form := form pg;
     folderPath := folderPath pg; dataTheme := dataTheme pg;
     toggleChecked := toggleChecked pg; storage := storage pg;
     clock := clock pg; timers := timers pg; journal := journal pg |}.

Definition set_statusDisplay (x : string) (pg : Page) : Page :=
  {| tbody := tbody pg; statusHTML := statusHTML pg; statusDisplay := x;
     modalDisplay := modalDisplay pg; form := form pg;
     folderPath := folderPath pg; dataTheme := dataTheme pg;
     toggleChecked := toggleChecked pg; storage := storage pg;
     clock := clock pg; timers := timers pg; journal := journal pg |}.

Definition set_modalDisplay (x : string) (pg : Page) : Page :=
  {| tbody := tbody pg; statusHTML := statusHTML pg;
     statusDisplay := statusDisplay pg; modalDisplay := x; form := form pg;
     folderPath := folderPath pg; dataTheme := dataTheme pg;
     toggleChecked := toggleChecked pg; storage := storage pg;
     clock := clock pg; timers := timers pg; journal := journal pg |}.

Definition set_form (x : list (string * string)) (pg : Page) : Page :=
  {| tbody := tbody pg; statusHTML := statusHTML pg;
     statusDisplay := statusDisplay pg; modalDisplay := modalDisplay pg;
     form := x; folderPath := folderPath pg; dataTheme := dataTheme pg;
     toggleChecked := toggleChecked pg; storage := storage pg;
     clock := clock pg; timers := timers pg; journal := journal pg |}.

Definition set_folderPath (x : string) (pg : Page) : Page :=
  {| tbody := tbody pg; statusHTML := statusHTML pg;
     statusDisplay := statusDisplay pg; modalDisplay := modalDisplay pg;
     form := form pg; folderPath := x; dataTheme := dataTheme pg;
     toggleChecked := toggleChecked pg; storage := storage pg;
     clock := clock pg; timers := timers pg; journal := journal pg |}.

Definition set_dataTheme (x : option string) (pg : Page) : Page :=
  {| tbody := tbody pg; statusHTML := statusHTML pg;
     statusDisplay := statusDisplay pg; modalDisplay := modalDisplay pg;
     form := form pg; folderPath := folderPath pg; dataTheme := x;
     toggleChecked := toggleChecked pg; storage := storage pg;
     clock := clock pg; timers := timers pg; journal := journal pg |}.

Definition set_toggleChecked (x : bool) (pg : Page) : Page :=
  {| tbody := tbody pg; statusHTML := statusHTML pg;
     statusDisplay := statusDisplay pg; modalDisplay := modalDisplay pg;
     form := form pg; folderPath := folderPath pg;
     dataTheme := dataTheme pg; toggleChecked := x; storage := storage pg;
     clock := clock pg; timers := timers pg; journal := journal pg |}.

Definition set_storage (x : gmap string string) (pg : Page) : Page :=
  {| tbody := tbody pg; statusHTML := statusHTML pg;
     statusDisplay := statusDisplay pg; modalDisplay := modalDisplay pg;
     form := form pg; folderPath := folderPath pg;
     dataTheme := dataTheme pg; toggleChecked := toggleChecked pg;
     storage := x; clock := clock pg; timers := timers pg;
     journal := journal pg |}.

Definition set_clock (x : Z) (pg : Page) : Page :=
  {| tbody := tbody pg; statusHTML := statusHTML pg;
     statusDisplay := statusDisplay pg; modalDisplay := modalDisplay pg;
     form := form pg; folderPath := folderPath pg;
     dataTheme := dataTheme pg; toggleChecked := toggleChecked pg;
     storage := storage pg; clock := x; timers := timers pg;
     journal := journal pg |}.

Definition set_timers (x : list Z) (pg : Page) : Page :=
  {| tbody := tbody pg; statusHTML := statusHTML pg;
     statusDisplay := statusDisplay pg; modalDisplay := modalDisplay pg;
     form := form pg; folderPath := folderPath pg;
     dataTheme := dataTheme pg; toggleChecked := toggleChecked pg;
     storage := storage pg; clock := clock pg; timers := x;
     journal := journal pg |}.

Definition set_journal (x : list effect) (pg : Page) : Page :=
  {| tbody := tbody pg; statusHTML := statusHTML pg;
     statusDisplay := statusDisplay pg; modalDisplay := modalDisplay pg;
     form := form pg; folderPath := folderPath pg;
     dataTheme := dataTheme pg; toggleChecked := toggleChecked pg;
     storage := storage pg; clock := clock pg; timers := timers pg;
     journal := x |}.

Definition log (e : effect) (pg : Page) : Page :=
  set_journal (journal pg ++ [e]) pg.

(** The requests issued so far. *)
Definition requests (pg : Page) : list request :=
  omap (fun e => match e with EFetch r => Some r | _ => None end) (journal pg).

(** *** The status section as the browser shows it

    The scripts assign markup to [statusSection.innerHTML] and the
    browser parses it.  The markup is always a [p] element with a [class]
    attribute around a text.  The parse is modelled for the texts that
    the HTML tokenizer reads as they stand, which are those without a
    less-than sign (it opens a tag), an ampersand (it opens a character
    reference), NUL (it is dropped) and a carriage return (it becomes a
    line feed); on any other markup the model gives no answer.  The
    status section is taken to be a container of flow content, the HTML
    document not being part of the sources. *)
Record paragraph : Type := Paragraph { class_name : string; content : string }.

Definition plain_char (c : ascii) : bool :=
  negb (existsb (Ascii.eqb c) ["<"%char; "&"%char; "000"%char; Regex.CR]).

(** A character of a double-quoted attribute value that stands for
    itself. *)
Definition attribute_char (c : ascii) : bool :=
  plain_char c && negb (Ascii.eqb c Regex.dquote).

Definition plain (s : string) : bool :=
  forallb plain_char (String.list_ascii_of_string s).

(** The longest run of characters that satisfy [p], and what follows. *)
Fixpoint span (p : ascii -> bool) (s : list ascii) : list ascii * list ascii :=
  match s with
  | c :: s' =>
      if p c then (c :: (span p s').1, (span p s').2) else ([], s)
  | [] => ([], [])
  end.

(** The element that the markup is parsed to, when it is one [p]
    element with a double-quoted [class] and a plain text. *)
Definition paragraph_of (markup : string) : option paragraph :=
  match Regex.strip_prefix (String.list_ascii_of_string "<p class=")
          (String.list_ascii_of_string markup) with
  | Some (q :: r) =>
      if Ascii.eqb q Regex.dquote then
        match Regex.strip_prefix [Regex.dquote; ">"%char]
                (span attribute_char r).2 with
        | Some r' =>
            match Regex.strip_prefix (String.list_ascii_of_string "</p>")
                    (span plain_char r').2 with
            | Some [] =>
                Some (Paragraph
                        (String.string_of_list_ascii (span attribute_char r).1)
                        (String.string_of_list_ascii (span plain_char r').1))
            | _ => None
            end
        | None => None
        end
      else None
  | _ => None
  end.

(** The paragraph that the status section shows. *)
Definition displayed (pg : Page) : option paragraph :=
  paragraph_of (statusHTML pg).

(** Modelled from the spec: the default values of the controls of
    [pdfReportForm] (the HTML document is not part of the sources); the
    spec calls the form after [reset()] empty, so every control goes back
    to the empty string. *)
Definition form_default (name : string) : string := "".

(** [form.reset()] *)
Definition form_reset (f : list (string * string)) : list (string * string) :=
  (fun nv => (nv.1, form_default nv.1)) <$> f.

(** The event loop lets time pass up to [t]: every callback that is due
    runs.  The only callback ever scheduled hides the status section. *)
Definition elapse (t : Z) (pg : Page) : Page :=
  let due := filter (fun d => (d <= t)%Z) (timers pg) in
  let pg1 := set_clock t (set_timers (filter (fun d => ¬ (d <= t)%Z) (timers pg)) pg) in
  match due with
  | [] => pg1
  | _ :: _ => set_statusDisplay "none" pg1
  end.

(** *** Programs

    A handler is a tree of page reads and writes, [await] points and
    calls of asynchronous functions that are not awaited. *)
Inductive Prog (A : Type) : Type :=
| Ret (a : A)
| Throw (e : error)
| Get (k : Page -> Prog A)
| Upd (f : Page -> Page) (k : Prog A)
| Await (req : request) (k : reply -> Prog A)
| Spawn (p : Prog unit) (k : Prog A).

Arguments Ret {A} a.
Arguments Throw {A} e.
Arguments Get {A} k.
Arguments Upd {A} f k.
Arguments Await {A} req k.
Arguments Spawn {A} p k.

Fixpoint bind {A B : Type} (p : Prog A) (f : A -> Prog B) : Prog B :=
  match p with
  | Ret a => f a
  | Throw e => Throw e
  | Get k => Get (fun pg => bind (k pg) f)
  | Upd g k => Upd g (bind k f)
  | Await req k => Await req (fun r => bind (k r) f)
  | Spawn q k => Spawn q (bind k f)
  end.

#[global] Instance Prog_ret : MRet Prog := @Ret.
#[global] Instance Prog_bind : MBind Prog := fun A B f p => bind p f.

(** [try { p } catch (error) { h error }] *)
Fixpoint try_catch {A : Type} (p : Prog A) (h : error -> Prog A) : Prog A :=
  match p with
  | Ret a => Ret a
  | Throw e => h e
  | Get k => Get (fun pg => try_catch (k pg) h)
  | Upd g k => Upd g (try_catch k h)
  | Await req k => Await req (fun r => try_catch (k r) h)
  | Spawn q k => Spawn q (try_catch k h)
  end.

(** [try { p } finally { f }] *)
Definition try_finally {A : Type} (p : Prog A) (f : Prog unit) : Prog A :=
  bind (try_catch (bind p (fun a => Ret (inr a))) (fun e => Ret (inl e)))
    (fun r => bind f (fun _ => match r with inl e => Throw e | inr a => Ret a end)).

Definition update (f : Page -> Page) : Prog unit := Upd f (Ret tt).
Definition read {A : Type} (f : Page -> A) : Prog A := Get (fun pg => Ret (f pg)).
Definition lift {A : Type} (r : error + A) : Prog A :=
  match r with inl e => Throw e | inr a => Ret a end.

(** [await fetch(...)]: the request is issued at once; the function is
    suspended until the promise settles, and a rejection is thrown. *)
Definition fetch (req : request) : Prog response :=
  Upd (log (EFetch req))
    (Await req (fun r => match r with
                         | Rejected e => Throw e
                         | Resolved resp => Ret resp
                         end)).

(** [array.forEach(callback)] on the elements of an array. *)
Fixpoint forEach (l : list value) (callback : value -> Prog unit) : Prog unit :=
  match l with
  | [] => Ret tt
  | x :: l' => bind (callback x) (fun _ => forEach l' callback)
  end.

(** *** Running a program

    A program runs until it finishes, throws, or reaches an [await] with
    nothing scheduled.  Each [turn] of the schedule settles one [await]:
    [meanwhile] is what the rest of the page's activity (other handlers,
    timers) did to the page while the program was suspended, [answer] how
    the awaited promise settled.  An asynchronous function called without
    [await] runs up to its first [await]; what is left of it is a task of
    its own, and an exception it throws does not reach the caller. *)
Inductive status (A : Type) : Type :=
| Finished (a : A)
| Failed (e : error)
| Suspended (req : request) (k : reply -> Prog A).

Arguments Finished {A} a.
Arguments Failed {A} e.
Arguments Suspended {A} req k.

Record task : Type := Task { awaiting : request; resume : reply -> Prog unit }.

Record turn : Type := Turn { meanwhile : Page -> Page; answer : reply }.

Record result (A : Type) : Type := Result {
  page : Page;
  spawned : list task;
  outcome : status A
}.

Arguments Result {A} page spawned outcome.
Arguments page {A} r.
Arguments spawned {A} r.
Arguments outcome {A} r.

Definition task_of (st : status unit) : list task :=
  match st with
  | Suspended req k => [Task req k]
  | Finished _ | Failed _ => []
  end.

Fixpoint run {A : Type} (p : Prog A) (schedule : list turn) (pg : Page)
    : result A :=
  match p with
  | Ret a => Result pg [] (Finished a)
  | Throw e => Result pg [] (Failed e)
  | Get k => run (k pg) schedule pg
  | Upd f k => run k schedule (f pg)
  | Await req k =>
      match schedule with
      | [] => Result pg [] (Suspended req k)
      | t :: schedule' => run (k (answer t)) schedule' (meanwhile t pg)
      end
  | Spawn q k =>
      let r1 := run q [] pg in
      let r2 := run k schedule (page r1) in
      Result (page r2) (spawned r1 ++ task_of (outcome r1) ++ spawned r2)
        (outcome r2)
  end.


End Dom.

(** ** Statements that the two scripts share verbatim *)

Module Common.
Import Js Regex Dom.

(** The arguments of [fetch]: a plain [GET], and a [POST] with its
    Content-Type header and the value that is sent as JSON. *)
Definition GET (u : string) : request := Request u "GET" None None.
Definition POST (u : string) (ct : option string) (b : option value) : request :=
  Request u "POST" ct b.

(** A double-quote character, as a string. *)
Definition dq : string := String.String dquote "".

(** [console.error(label, error)] *)
Definition console_error (label : string) (e : error) : Prog unit :=
  update (log (EConsoleError label e)).

(** [target.addEventListener(type, ...)] *)
Definition addEventListener (target type : string) : Prog unit :=
  update (log (EListen target type)).

(** [tableBody.insertRow()]: a new last row; the result is its index. *)
Definition insertRow : Prog nat :=
  Get (fun pg => Upd (set_tbody (tbody pg ++ [[]])) (Ret (length (tbody pg)))).

(** [row.insertCell()]: a new last cell of the row; the result is its
    index in the row. *)
Definition insertCell (r : nat) : Prog nat :=
  Get (fun pg =>
    Upd (set_tbody (alter (fun cells => cells ++ [Cell 1 ""]) r (tbody pg)))
      (Ret (length (default [] (tbody pg !! r))))).

(** The string a DOM string attribute takes from a value. *)
Definition dom_string (v : value) : string :=
  match v with
  | VUndefined | VNull => ""
  | _ => to_string v
  end.

(** [cell.textContent = v] *)
Definition set_textContent (r c : nat) (v : value) : Prog unit :=
  update (fun pg =>
    set_tbody
      (alter (alter (fun cl => Cell (colspan cl) (dom_string v)) c) r (tbody pg))
      pg).

(** [row.insertCell().textContent = record.name || '']: the cell is
    inserted before the right-hand side is evaluated. *)
Definition put_cell (r : nat) (record : value) (name : string) : Prog unit :=
  c ← insertCell r;
  v ← lift (get_prop record name);
  set_textContent r c (or_else v (VStr "")).

(** [collection.forEach(callback)]: only an array has the method.  The
    messages are the ones of V8, which also names the variable in the
    last one; they only reach the console. *)
Definition call_forEach (collection : value) (callback : value -> Prog unit)
    : Prog unit :=
  match collection with
  | VArr l => forEach l callback
  | VUndefined =>
      Throw (TypeError "Cannot read properties of undefined (reading 'forEach')")
  | VNull =>
      Throw (TypeError "Cannot read properties of null (reading 'forEach')")
  | _ => Throw (TypeError "forEach is not a function")
  end.

(** The file name of the download: the statements between
    [response.headers.get('Content-Disposition')] and [a.download =
    filename], which differ in the two scripts by the default name only. *)
Definition download_name (fallback : string) (disposition : option string)
    : string :=
  match disposition with
  | Some d =>
      if negb (String.eqb d "") && includes d "attachment" then
        match exec filenameRegex d with
        | Some matches =>
            match group 1 matches with
            | Some g =>
                if negb (String.eqb g "")
                then replace_all_empty (Class false [squote; dquote]) g
                else fallback
            | None => fallback
            end
        | None => fallback
        end
      else fallback
  | None => fallback
  end.

(** The download: an object URL is created for the blob, an anchor with
    that URL and the file name is appended to the body and clicked, and
    the URL is revoked.  The anchor stays in the document; it is not part
    of the page that is modelled. *)
Definition save_as (filename data : string) : Prog unit :=
  update (log (ECreateObjectURL data));;
  update (log (EAnchorClick filename data));;
  update (log (ERevokeObjectURL data)).

(** [setTheme(theme)] *)
Definition setTheme (theme : string) : Prog unit :=
  update (set_dataTheme (Some theme));;
  update (fun pg => log (EStorageSet "theme" theme)
                      (set_storage (<["theme" := theme]> (storage pg)) pg));;
  if String.eqb theme "dark" then update (set_toggleChecked true)
  else update (set_toggleChecked false).

(** The [change] listener of the toggle; the browser has already flipped
    [checked]. *)
Definition themeToggle_change : Prog unit :=
  checked ← read toggleChecked;
  if checked : bool then setTheme "dark" else setTheme "light".

(** The last statements of both scripts: the saved theme is applied. *)
Definition apply_saved_theme : Prog unit :=
  update (log (EStorageGet "theme"));;
  savedTheme ← read (fun pg => storage pg !! "theme");
  match savedTheme with
  | Some t => if negb (String.eqb t "") then setTheme t else setTheme "light"
  | None => setTheme "light"
  end.

(** The three listeners that open and dismiss the modal. *)
Definition openModal_click : Prog unit := update (set_modalDisplay "block").
Definition closeModalBtn_click : Prog unit := update (set_modalDisplay "none").
Definition window_click (target_is_modal : bool) : Prog unit :=
  if target_is_modal then update (set_modalDisplay "none") else Ret tt.

Definition finally_close_modal : Prog unit :=
  update (set_modalDisplay "none");;
  update (fun pg => set_form (form_reset (form pg)) pg).

End Common.

(** ** The artifact dashboard *)

Module Dashboard.
Import Js Regex Dom Common.

(** [showStatus(message, type = 'info')]: the template string is
    assigned to [innerHTML] as it stands; what the browser shows for it is
    [Dom.paragraph_of] of that markup. *)
Definition showStatus (message : value) (type : string) : Prog unit :=
  update (set_statusHTML
            ("<p class=" +:+ dq +:+ type +:+ dq +:+ ">"
               +:+ to_string message +:+ "</p>"));;
  update (set_statusDisplay "block");;
  update (fun pg => set_timers (timers pg ++ [(clock pg + 5000)%Z]) pg).

Definition artifact_columns : list string :=
  ["id"; "artifact_type"; "name"; "path"; "timestamp"; "last_access";
   "extra"; "details"].

(** [fetchArtifacts()] *)
Definition fetchArtifacts : Prog unit :=
  try_catch
    (response ← fetch (GET "/api/artifacts");
     artifacts ← lift (json response);
     update (set_tbody []);;
     len ← lift (get_prop artifacts "length");
     if strict_eq_num len 0 then
       update (set_tbody [[Cell 8 "No artifacts found."]])
     else
       call_forEach artifacts (fun artifact =>
         r ← insertRow;
         put_cell r artifact "id";;
         put_cell r artifact "artifact_type";;
         put_cell r artifact "name";;
         put_cell r artifact "path";;
         put_cell r artifact "timestamp";;
         put_cell r artifact "last_access";;
         put_cell r artifact "extra";;
         put_cell r artifact "details"))
    (fun error =>
       console_error "Error fetching artifacts:" error;;
       showStatus (VStr "Error fetching artifacts.") "error").

(** The [submit] listener of [pdfReportForm]; [e.preventDefault()] does
    nothing to the page that is modelled. *)
Definition pdfReportForm_submit : Prog unit :=
  showStatus (VStr "Generating PDF report...") "info";;
  reportDetails ← read (fun pg => fromEntries (form pg));
  try_finally
    (try_catch
       (response ← fetch (POST "/api/export_pdf" (Some "application/json")
                            (Some reportDetails));
        if ok response then
          data ← lift (blob response);
          save_as
            (download_name "artifacts_report.pdf" (content_disposition response))
            data;;
          showStatus (VStr "PDF report initiated. Check your downloads.") "info"
        else
          errorData ← lift (json response);
          message ← lift (get_prop errorData "message");
          showStatus (VStr ("Error generating PDF: " +:+ to_string message))
            "error")
       (fun error =>
          console_error "Error exporting PDF:" error;;
          showStatus (VStr ("Error exporting PDF: " +:+ err_message error))
            "error"))
    finally_close_modal.

(** The part common to the three command listeners: the body of their
    [try] after the [fetch], with what the success branch does after
    showing the message. *)
Definition on_status_body (response : response) (then_ : Prog unit) : Prog unit :=
  data ← lift (json response);
  st ← lift (get_prop data "status");
  if strict_eq_str st "success" then
    message ← lift (get_prop data "message");
    showStatus message "info";;
    then_
  else
    message ← lift (get_prop data "message");
    showStatus (VStr ("Error: " +:+ to_string message)) "error".

(** The [click] listener of [parseFolderBtn]. *)
Definition parseFolderBtn_click : Prog unit :=
  path ← read folderPath;
  if String.eqb path "" then
    showStatus (VStr "Please enter a folder path.") "error"
  else
    showStatus (VStr "Parsing folder started...") "info";;
    try_catch
      (response ← fetch (POST "/api/parse_folder" (Some "application/json")
                           (Some (VObj {["folder_path" := VStr path]})));
       on_status_body response (Ret tt))
      (fun error =>
         console_error "Error parsing folder:" error;;
         showStatus (VStr ("Error parsing folder: " +:+ err_message error))
           "error").

(** The [click] listener of [parseShellbagsBtn]. *)
Definition parseShellbagsBtn_click : Prog unit :=
  showStatus (VStr "Parsing ShellBags started...") "info";;
  try_catch
    (response ← fetch (POST "/api/parse_shellbags" (Some "application/json")
                         None);
     on_status_body response (Ret tt))
    (fun error =>
       console_error "Error parsing ShellBags:" error;;
       showStatus (VStr ("Error parsing ShellBags: " +:+ err_message error))
         "error").

(** The [click] listener of [clearDbBtn]; [answer] is what the user
    answers to [confirm]. *)
Definition clearDbBtn_click (answer : bool) : Prog unit :=
  update (log (EConfirm "Are you sure you want to clear the entire database?"
                 answer));;
  if negb answer then Ret tt
  else
    showStatus (VStr "Clearing database...") "info";;
    try_catch
      (response ← fetch (POST "/api/clear_db" None None);
       on_status_body response (Spawn fetchArtifacts (Ret tt)))
      (fun error =>
         console_error "Error clearing database:" error;;
         showStatus (VStr ("Error clearing database: " +:+ err_message error))
           "error").

(** The [click] listener of [refreshBtn] is [fetchArtifacts] itself. *)
Definition refreshBtn_click : Prog unit := fetchArtifacts.

Definition showCorrelationsBtn_click : Prog unit :=
  update (log (EWindowOpen "/correlation" "_blank")).

Definition exportCsvBtn_click : Prog unit :=
  showStatus (VStr "Generating CSV report...") "info";;
  update (log (ENavigate "/api/export_csv"));;
  showStatus (VStr "CSV report initiated. Check your downloads.") "info".

(** The [DOMContentLoaded] listener, statement by statement. *)
Definition main : Prog unit :=
  Spawn fetchArtifacts
    (addEventListener "exportPdfBtn" "click";;
     addEventListener "closeModalBtn" "click";;
     addEventListener "window" "click";;
     addEventListener "pdfReportForm" "submit";;
     addEventListener "parseFolderBtn" "click";;
     addEventListener "parseShellbagsBtn" "click";;
     addEventListener "clearDbBtn" "click";;
     addEventListener "refreshBtn" "click";;
     addEventListener "showCorrelationsBtn" "click";;
     addEventListener "exportCsvBtn" "click";;
     addEventListener "themeToggle" "change";;
     apply_saved_theme).

End Dashboard.

(** ** The correlation view *)

Module Correlation.
Import Js Regex Dom Common.

(** [alert(message)] *)
Definition alert (message : string) : Prog unit := update (log (EAlert message)).

Definition correlation_columns : list string :=
  ["timestamp"; "artifact_type"; "detail"; "anomaly"].

(** [fetchCorrelations()] *)
Definition fetchCorrelations : Prog unit :=
  try_catch
    (response ← fetch (GET "/api/correlations");
     correlations ← lift (json response);
     update (set_tbody []);;
     len ← lift (get_prop correlations "length");
     if strict_eq_num len 0 then
       update (set_tbody [[Cell 4 "No correlations found."]])
     else
       call_forEach correlations (fun correlation =>
         r ← insertRow;
         put_cell r correlation "timestamp";;
         put_cell r correlation "artifact_type";;
         put_cell r correlation "detail";;
         put_cell r correlation "anomaly"))
    (fun error =>
       console_error "Error fetching correlations:" error;;
       update (set_tbody [[Cell 4 "Error fetching correlations."]])).

(** The [submit] listener of [pdfReportForm]. *)
Definition pdfReportForm_submit : Prog unit :=
  alert "Generating Correlation PDF report...";;
  reportDetails ← read (fun pg => fromEntries (form pg));
  try_finally
    (try_catch
       (response ← fetch (POST "/api/export_correlation_pdf"
                            (Some "application/json") (Some reportDetails));
        if ok response then
          data ← lift (blob response);
          save_as
            (download_name "correlation_report.pdf"
               (content_disposition response))
            data
        else
          errorData ← lift (json response);
          message ← lift (get_prop errorData "message");
          alert ("Error generating PDF: " +:+ to_string message))
       (fun error =>
          console_error "Error exporting correlation PDF:" error;;
          alert ("Error exporting correlation PDF: " +:+ err_message error)))
    finally_close_modal.

(** The [DOMContentLoaded] listener, statement by statement. *)
Definition main : Prog unit :=
  Spawn fetchCorrelations
    (addEventListener "exportCorrelationPdfBtn" "click";;
     addEventListener "closeModalBtn" "click";;
     addEventListener "window" "click";;
     addEventListener "pdfReportForm" "submit";;
     addEventListener "themeToggle" "change";;
     apply_saved_theme).

End Correlation.

(** * Vocabulary of the properties

    What the statements below talk about: runs of synchronous code, the
    expected rendering of a record, what the status section shows, the
    downloads of a page, and a direct reading of the filename parameter. *)

Import Js Regex Dom Common.

(** [evals p pg pg' a]: [p] runs from [pg] to [pg'] and returns [a]
    without throwing, awaiting or calling asynchronous functions. *)
Inductive evals {A : Type} : Prog A -> Page -> Page -> A -> Prop :=
| evals_Ret a pg : evals (Ret a) pg pg a
| evals_Get k pg pg' a : evals (k pg) pg pg' a -> evals (Get k) pg pg' a
| evals_Upd f k pg pg' a : evals k (f pg) pg' a -> evals (Upd f k) pg pg' a.

(** The text of a cell, read off the record: the field's value as a
    string when the field is there and truthy, nothing otherwise. *)
Definition cell_text (field : option value) : string :=
  match field with
  | Some v => if truthy v then to_string v else ""
  | None => ""
  end.

(** The row of a record: one cell of column span 1 per column. *)
Definition record_row (columns : list string) (m : gmap string value) : row :=
  (fun name => Cell 1 (cell_text (m !! name))) <$> columns.



(** The table after a refresh that is answered by the records [recs]. *)
Definition refreshed (refresh : Prog unit) (recs : list (gmap string value))
    (pg : Page) : list row :=
  tbody (page (run refresh
                 [Turn id (Resolved (Response true None (inr "")
                                       (inr (VArr (VObj <$> recs)))))] pg)).

Definition blank_page : Page :=
  {| tbody := []; statusHTML := ""; statusDisplay := ""; modalDisplay := "";
     form := []; folderPath := ""; dataTheme := None; toggleChecked := false;
     storage := ∅; clock := 0; timers := []; journal := [] |}.

(** A response whose body is the JSON text of [v]. *)
Definition json_response (v : value) : response :=
  Response true None (inr "") (inr v).


Definition success_body : gmap string value :=
  {["status" := VStr "success"; "message" := VStr "ok"]}.

Definition failure_body : gmap string value :=
  {["status" := VStr "error"; "message" := VStr "boom"]}.

(** A fresh page over the storage that [setTheme('dark')] leaves. *)
Definition reloaded_dark : Page :=
  set_storage (storage (page (run (setTheme "dark") [] blank_page))) blank_page.

(** A refresh fails when [fetch] rejects or when the body of the response
    is not JSON. *)
Definition refresh_fails (r : reply) : Prop :=
  match r with
  | Rejected _ => True
  | Resolved resp => match json resp with inl _ => True | inr _ => False end
  end.

(** The markup that [showStatus(text, type)] assigns to the status
    section. *)
Definition banner (type text : string) : string :=
  "<p class=" +:+ dq +:+ type +:+ dq +:+ ">"
    +:+ text +:+ "</p>".

(** The markup in the status section when a command is answered by
    [resp]. *)
Definition shown_after (command : Prog unit) (resp : response)
    (mw : Page -> Page) (pg : Page) : string :=
  statusHTML (page (run command [Turn mw (Resolved resp)] pg)).

(** [shows pg type text]: the status section is visible, the markup last
    assigned to it is the paragraph of class [type] around [text], and
    when [text] is plain the browser shows exactly that: one paragraph of
    class [type] whose text is [text]. *)
Definition shows (pg : Page) (type text : string) : Prop :=
  statusHTML pg = banner type text
  /\ statusDisplay pg = "block"
  /\ (plain text = true -> displayed pg = Some (Paragraph type text)).


(** The theme that a page load applies: the saved one, and light when
    nothing (or the empty string) is saved. *)
Definition theme_on_load (pg : Page) : string :=
  match storage pg !! "theme" with
  | Some t => if String.eqb t "" then "light" else t
  | None => "light"
  end.

(** The listeners that the two scripts register, in order. *)
Definition dashboard_listeners : list effect :=
  [EListen "exportPdfBtn" "click"; EListen "closeModalBtn" "click";
   EListen "window" "click"; EListen "pdfReportForm" "submit";
   EListen "parseFolderBtn" "click"; EListen "parseShellbagsBtn" "click";
   EListen "clearDbBtn" "click"; EListen "refreshBtn" "click";
   EListen "showCorrelationsBtn" "click"; EListen "exportCsvBtn" "click";
   EListen "themeToggle" "change"].

Definition correlation_listeners : list effect :=
  [EListen "exportCorrelationPdfBtn" "click"; EListen "closeModalBtn" "click";
   EListen "window" "click"; EListen "pdfReportForm" "submit";
   EListen "themeToggle" "change"].

(** What a page load does with the theme: the script first requests its
    table and registers its listeners, and then, as its last step, reads
    the saved theme and applies it. *)
Definition applies_saved_theme_last (main : Prog unit) (table : string)
    (listeners : list effect) (pg : Page) : Prop :=
  let p := page (run main [] pg) in
  dataTheme p = Some (theme_on_load pg)
  /\ toggleChecked p = String.eqb (theme_on_load pg) "dark"
  /\ storage p !! "theme" = Some (theme_on_load pg)
  /\ journal p
     = journal pg ++ EFetch (GET table) :: listeners
         ++ [EStorageGet "theme"; EStorageSet "theme" (theme_on_load pg)].

(** ** The filename parameter, read directly

    What the spec calls parsing [filename=<quoted-or-bare-token>], as a
    scan of the header from left to right, to be compared with the
    regular expression of the scripts. *)

Module Param.
Import Regex.

(** The input after the longest run of characters that satisfy [p]. *)
Fixpoint skip (p : ascii -> bool) (s : list ascii) : list ascii :=
  match s with
  | c :: s' => if p c then skip p s' else s
  | [] => []
  end.

(** The input after the first [q], when no line terminator comes before
    it. *)
Fixpoint after_closing (q : ascii) (s : list ascii) : option (list ascii) :=
  match s with
  | [] => None
  | c :: s' =>
      if Ascii.eqb q c then Some s'
      else if line_terminator c then None
      else after_closing q s'
  end.

Definition is_quote (c : ascii) : bool := in_class false [squote; dquote] c.

(** The input after the value that starts at [v]: a quoted string when
    [v] opens with a quote that is closed on the same line, and otherwise
    the characters up to the next semicolon or line feed. *)
Definition after_value (v : list ascii) : list ascii :=
  let bare := skip (in_class true [";"%char; LF]) v in
  match v with
  | q :: v' =>
      if is_quote q then
        match after_closing q v' with
        | Some rest => rest
        | None => bare
        end
      else bare
  | [] => bare
  end.

Definition value (v : list ascii) : list ascii :=
  take (length v - length (after_value v)) v.

(** The parameter when it starts at the head of [s]: the word filename,
    any characters other than a semicolon, an equals sign and a line
    feed, an equals sign, and the value. *)
Definition param_here (s : list ascii) : option (list ascii) :=
  match strip_prefix (String.list_ascii_of_string "filename") s with
  | Some r =>
      match skip (in_class true [";"%char; "="%char; LF]) r with
      | e :: v => if Ascii.eqb "="%char e then Some (value v) else None
      | [] => None
      end
  | None => None
  end.

(** The leftmost parameter of the header. *)
Fixpoint param (s : list ascii) : option (list ascii) :=
  match param_here s with
  | Some g => Some g
  | None =>
      match s with
      | [] => None
      | _ :: s' => param s'
      end
  end.

End Param.

Abbreviation chars := String.list_ascii_of_string.
Abbreviation of_chars := String.string_of_list_ascii.





(** ** Vocabulary of the further properties *)

(** [throws p pg pg' e]: [p] runs from [pg] to [pg'] and throws [e] there,
    without awaiting or calling asynchronous functions. *)
Inductive throws {A : Type} : Prog A -> Page -> Page -> error -> Prop :=
| throws_Throw e pg : throws (Throw e) pg pg e
| throws_Get k pg pg' e : throws (k pg) pg pg' e -> throws (Get k) pg pg' e
| throws_Upd f k pg pg' e : throws k (f pg) pg' e -> throws (Upd f k) pg pg' e.

(** The elements on which the callback of [forEach] throws. *)
Definition nullish (x : value) : bool :=
  match x with
  | VUndefined | VNull => true
  | _ => false
  end.

(** The row that the callback leaves for an element of the array: the row
    of the record for an object; a row of empty cells for a number, a
    string, a boolean or an array, none of which has the fields; and, for
    [null], the first cell only, since reading the first field throws
    after the cell was inserted. *)
Definition element_row (columns : list string) (x : value) : row :=
  match x with
  | VObj m => record_row columns m
  | VUndefined | VNull => take 1 ((fun _ => Cell 1 "") <$> columns)
  | _ => (fun _ => Cell 1 "") <$> columns
  end.

(** The rows that [forEach] leaves: one per element, up to and including
    the first element on which the callback throws. *)
Fixpoint rendered (columns : list string) (l : list value) : list row :=
  match l with
  | [] => []
  | x :: l' =>
      element_row columns x
        :: (if nullish x then [] else rendered columns l')
  end.

(** Every field of the element that a column shows has a string: the
    callback converts the fields of an object to strings, and the other
    elements have no fields. *)
Definition printable_fields (columns : list string) (x : value) : bool :=
  match x with
  | VObj m =>
      forallb (fun name => printable (default VUndefined (m !! name))) columns
  | _ => true
  end.

(** No element makes the callback throw. *)
Definition renders_all (l : list value) : bool := forallb (fun x => negb (nullish x)) l.

(** A value that is not an array. *)
Definition not_array (v : value) : Prop :=
  match v with
  | VArr _ => False
  | _ => True
  end.

(** A value whose [length] is the number 0 without being an array: the
    empty string, and an object with a field [length] that holds 0. *)
Definition zero_length (v : value) : bool :=
  match v with
  | VStr s => String.eqb s ""
  | VObj m => match m !! "length" with
              | Some (VNum z) => (z =? 0)%Z
              | _ => false
              end
  | _ => false
  end.

(** A sample array whose third element is [null]. *)
Definition sample_elements : list value :=
  [VObj {["id" := VNum 7]}; VNum 3; VNull; VObj {["id" := VNum 8]}].

(** The error that a command meets before it can read the status of its
    answer: the rejection of the request, or the failure to read the body
    as JSON. *)
Definition transport_error (r : reply) : option error :=
  match r with
  | Rejected e => Some e
  | Resolved resp =>
      match json resp with
      | inl e => Some e
      | inr _ => None
      end
  end.

(** The request of the parse-folder command for the path [path]. *)
Definition parse_folder_request (path : string) : request :=
  POST "/api/parse_folder" (Some "application/json")
    (Some (VObj {["folder_path" := VStr path]})).

(** A JSON value that is neither an object nor [null]: it has no field
    [status] and no field [message]. *)
Definition fieldless (v : value) : Prop :=
  match v with
  | VBool _ | VNum _ | VStr _ | VArr _ => True
  | VUndefined | VNull | VObj _ => False
  end.

(** The value that a form submits under [name]: the one of the last
    control that has the name. *)
Definition submitted (entries : list (string * string)) (name : string)
    : option string :=
  snd <$> last (filter (fun nv => nv.1 = name) entries).

(** What the page did with object URLs and download anchors, oldest
    first. *)
Definition url_effects (pg : Page) : list effect :=
  omap (fun e => match e with
                 | ECreateObjectURL _ | EAnchorClick _ _ | ERevokeObjectURL _ =>
                     Some e
                 | _ => None
                 end) (journal pg).

(** The alerts that the page has raised, oldest first. *)
Definition alerts (pg : Page) : list string :=
  omap (fun e => match e with EAlert s => Some s | _ => None end) (journal pg).

(** The answers to the export request, as the listeners tell them apart:
    the file; a refusal, with the [message] of its JSON value ([undefined]
    when the value has none); an error that is handed to the listener
    (the request is rejected, or the body of the response cannot be read
    as the listener reads it); and a refusal whose JSON value is [null],
    where reading [message] makes the engine throw a [TypeError] in a
    wording of its own. *)
Inductive export_answer : Type :=
| Exported (disposition : option string) (data : string)
| Refused (message : value)
| Broken (e : error)
| Unreadable.

Definition classify (r : reply) : export_answer :=
  match r with
  | Rejected e => Broken e
  | Resolved resp =>
      if ok resp then
        match blob resp with
        | inl e => Broken e
        | inr data => Exported (content_disposition resp) data
        end
      else
        match json resp with
        | inl e => Broken e
        | inr (VUndefined | VNull) => Unreadable
        | inr (VObj m) => Refused (default VUndefined (m !! "message"))
        | inr (VBool _ | VNum _ | VStr _ | VArr _) => Refused VUndefined
        end
  end.

(** The clicks that the three modal listeners react to: on the button
    that opens the modal, on the close button, and anywhere in the window,
    on the modal's backdrop itself or on something else. *)
Inductive modal_click : Type :=
| OnOpenButton
| OnCloseButton
| OnWindow (target_is_modal : bool).

Definition modal_listener (c : modal_click) : Prog unit :=
  match c with
  | OnOpenButton => openModal_click
  | OnCloseButton => closeModalBtn_click
  | OnWindow target_is_modal => window_click target_is_modal
  end.

(** The page after the listeners have run for a sequence of clicks. *)
Definition clicked (clicks : list modal_click) (pg : Page) : Page :=
  foldl (fun p c => page (run (modal_listener c) [] p)) pg clicks.

(** The display of the modal after a sequence of clicks: the last click
    that is not a click elsewhere in the window decides. *)
Fixpoint modal_after (clicks : list modal_click) (display : string) : string :=
  match clicks with
  | [] => display
  | OnOpenButton :: clicks' => modal_after clicks' "block"
  | OnCloseButton :: clicks' | OnWindow true :: clicks' =>
      modal_after clicks' "none"
  | OnWindow false :: clicks' => modal_after clicks' display
  end.

(** Every pending callback of the status section is due within five
    seconds. *)
Definition timers_within (pg : Page) : Prop :=
  Forall (fun d => (d <= clock pg + 5000)%Z) (timers pg).

(** The theme that the toggle stands for. *)
Definition toggled_theme (checked : bool) : string :=
  if checked then "dark" else "light".

(** A header with the extended form of the parameter, as RFC 5987 writes
    it: a star after the name, and the charset and an empty language tag
    between single quotes before the value. *)
Definition header_extended : string :=
  "attachment; filename*=UTF-8''report.pdf".


(** * Properties *)

(** ** Running synchronous code *)

Section Running.
Import Js Dom.

Lemma evals_eq {A : Type} (p : Prog A) pg pg1 pg2 a :
  evals p pg pg1 a -> pg1 = pg2 -> evals p pg pg2 a.
Proof. by intros H <-. Qed.

Lemma evals_bind {A B : Type} (p : Prog A) (f : A -> Prog B) pg pg1 pg2 a b :
  evals p pg pg1 a -> evals (f a) pg1 pg2 b -> evals (bind p f) pg pg2 b.
Proof.
  induction 1; simpl; intros Hf; [assumption | constructor; auto ..].
Qed.

Lemma run_bind_evals {A B : Type} (p : Prog A) (f : A -> Prog B) pg pg1 a sched :
  evals p pg pg1 a -> run (bind p f) sched pg = run (f a) sched pg1.
Proof. induction 1; simpl; auto. Qed.

Lemma run_evals {A : Type} (p : Prog A) pg pg1 a sched :
  evals p pg pg1 a -> run p sched pg = Result pg1 [] (Finished a).
Proof. induction 1; simpl; auto. Qed.

Lemma evals_forEach (l : list value) (callback : value -> Prog unit)
    (step : value -> Page -> Page) pg :
  (forall x pg0, x ∈ l -> evals (callback x) pg0 (step x pg0) tt) ->
  evals (forEach l callback) pg (foldl (fun p x => step x p) pg l) tt.
Proof.
  revert pg. induction l as [|x l IH]; intros pg H; simpl.
  - constructor.
  - eapply evals_bind.
    + apply H. left.
    + apply IH. intros y pg0 Hy. apply H. by right.
Qed.

End Running.

(** ** Rendering a record *)

Section Rendering.
Import Js Dom Common.

Lemma dom_string_or_else (m : gmap string value) name :
  dom_string (or_else (default VUndefined (m !! name)) (VStr "")) =
  cell_text (m !! name).
Proof.
  unfold or_else, cell_text.
  destruct (m !! name) as [v|]; simpl; [|reflexivity].
  destruct (truthy v) eqn:Hv; [|reflexivity].
  destruct v; simpl in *; try reflexivity; discriminate.
Qed.

Lemma evals_put_cell (m : gmap string value) name pg T cells :
  tbody pg = T ++ [cells] ->
  evals (put_cell (length T) (VObj m) name) pg
    (set_tbody (T ++ [cells ++ [Cell 1 (cell_text (m !! name))]]) pg) tt.
Proof.
  intros HT. unfold put_cell. simpl. repeat constructor. simpl.
  rewrite HT, list_lookup_middle by reflexivity.
  rewrite (alter_app_r_alt _ T [cells]) by lia.
  rewrite Nat.sub_diag. simpl.
  rewrite (alter_app_r_alt _ T) by lia.
  rewrite Nat.sub_diag. simpl.
  rewrite (alter_app_r_alt _ cells) by lia.
  rewrite Nat.sub_diag. simpl.
  rewrite dom_string_or_else.
  constructor.
Qed.

Lemma run_try_evals {A : Type} (p : Prog A) h pg pg1 a sched :
  evals p pg pg1 a -> run (try_catch p h) sched pg = Result pg1 [] (Finished a).
Proof. induction 1; simpl; auto. Qed.

(** The callback of [forEach] adds the row of the record below the rows
    that are there. *)
Lemma evals_artifact_row (m : gmap string value) pg :
  evals
    (r ← insertRow;
     put_cell r (VObj m) "id";;
     put_cell r (VObj m) "artifact_type";;
     put_cell r (VObj m) "name";;
     put_cell r (VObj m) "path";;
     put_cell r (VObj m) "timestamp";;
     put_cell r (VObj m) "last_access";;
     put_cell r (VObj m) "extra";;
     put_cell r (VObj m) "details")
    pg
    (set_tbody (tbody pg ++ [record_row Dashboard.artifact_columns m]) pg) tt.
Proof.
  eapply evals_bind; [repeat constructor|]. cbv beta.
  repeat (eapply evals_bind; [by apply (evals_put_cell m _ _ (tbody pg))|];
          cbv beta).
  eapply evals_eq; [by apply (evals_put_cell m _ _ (tbody pg))|reflexivity].
Qed.

Lemma evals_correlation_row (m : gmap string value) pg :
  evals
    (r ← insertRow;
     put_cell r (VObj m) "timestamp";;
     put_cell r (VObj m) "artifact_type";;
     put_cell r (VObj m) "detail";;
     put_cell r (VObj m) "anomaly")
    pg
    (set_tbody (tbody pg ++ [record_row Correlation.correlation_columns m]) pg)
    tt.
Proof.
  eapply evals_bind; [repeat constructor|]. cbv beta.
  repeat (eapply evals_bind; [by apply (evals_put_cell m _ _ (tbody pg))|];
          cbv beta).
  eapply evals_eq; [by apply (evals_put_cell m _ _ (tbody pg))|reflexivity].
Qed.

Lemma foldl_add_rows (f : gmap string value -> row) recs pg :
  foldl (fun p x => match x with
                    | VObj m => set_tbody (tbody p ++ [f m]) p
                    | _ => p
                    end) pg (VObj <$> recs)
  = set_tbody (tbody pg ++ (f <$> recs)) pg.
Proof.
  revert pg. induction recs as [|m recs IH]; intros pg; simpl.
  - rewrite app_nil_r. by destruct pg.
  - rewrite IH. simpl. by rewrite <- app_assoc.
Qed.

Lemma length_records_nonzero (recs : list (gmap string value)) :
  recs ≠ [] -> (Z.of_nat (length (VObj <$> recs)) =? 0)%Z = false.
Proof. destruct recs; [done|]. intros _. simpl. lia. Qed.

Lemma fetchArtifacts_records recs resp mw pg :
  recs ≠ [] ->
  json resp = inr (VArr (VObj <$> recs)) ->
  run Dashboard.fetchArtifacts [Turn mw (Resolved resp)] pg =
  Result
    (set_tbody (record_row Dashboard.artifact_columns <$> recs)
       (mw (log (EFetch (GET "/api/artifacts")) pg)))
    [] (Finished tt).
Proof.
  intros Hne Hjson. unfold Dashboard.fetchArtifacts. simpl.
  rewrite Hjson. simpl. rewrite length_records_nonzero by done.
  erewrite run_try_evals; [reflexivity|].
  eapply evals_eq.
  - apply (evals_forEach _ _ (fun x p =>
      match x with
      | VObj m => set_tbody (tbody p ++ [record_row Dashboard.artifact_columns m]) p
      | _ => p
      end)).
    intros x pg0 Hx. apply list_elem_of_fmap in Hx as [m [-> _]].
    apply evals_artifact_row.
  - by rewrite foldl_add_rows.
Qed.

Lemma fetchCorrelations_records recs resp mw pg :
  recs ≠ [] ->
  json resp = inr (VArr (VObj <$> recs)) ->
  run Correlation.fetchCorrelations [Turn mw (Resolved resp)] pg =
  Result
    (set_tbody (record_row Correlation.correlation_columns <$> recs)
       (mw (log (EFetch (GET "/api/correlations")) pg)))
    [] (Finished tt).
Proof.
  intros Hne Hjson. unfold Correlation.fetchCorrelations. simpl.
  rewrite Hjson. simpl. rewrite length_records_nonzero by done.
  erewrite run_try_evals; [reflexivity|].
  eapply evals_eq.
  - apply (evals_forEach _ _ (fun x p =>
      match x with
      | VObj m =>
          set_tbody (tbody p ++ [record_row Correlation.correlation_columns m]) p
      | _ => p
      end)).
    intros x pg0 Hx. apply list_elem_of_fmap in Hx as [m [-> _]].
    apply evals_correlation_row.
  - by rewrite foldl_add_rows.
Qed.

(** A falsy value in a field and no field at all give the same row. *)
Lemma record_row_falsy columns (m : gmap string value) name v :
  truthy v = false ->
  record_row columns (<[name := v]> m) = record_row columns (delete name m).
Proof.
  intros Hv. unfold record_row. apply list_fmap_ext. intros _ c _.
  destruct (decide (name = c)) as [->|Hne].
  - rewrite lookup_insert_eq, lookup_delete_eq. simpl. by rewrite Hv.
  - by rewrite lookup_insert_ne, lookup_delete_ne.
Qed.

End Rendering.

(** ** Table refresh *)

Section Refresh.
Import Js Dom Common.




(** C7: a refresh that is answered by the empty array leaves exactly one
    row in the table, a single cell that spans as many columns as the
    entity has fields: 8 for artifacts, 4 for correlations. *)
Theorem C7_empty_collection_placeholder
    (resp : response) (mw : Page -> Page) (pg : Page) :
  json resp = inr (VArr []) ->
  tbody (page (run Dashboard.fetchArtifacts [Turn mw (Resolved resp)] pg))
  = [[Cell (length Dashboard.artifact_columns) "No artifacts found."]]
  /\ length Dashboard.artifact_columns = 8
  /\ tbody (page (run Correlation.fetchCorrelations [Turn mw (Resolved resp)] pg))
     = [[Cell (length Correlation.correlation_columns) "No correlations found."]]
  /\ length Correlation.correlation_columns = 4.
Proof.
  intros Hjson.
  unfold Dashboard.fetchArtifacts, Correlation.fetchCorrelations. simpl.
  by rewrite Hjson.
Qed.

Lemma C7_empty_collection_placeholder_witness :
  json (json_response (VArr [])) = inr (VArr [])
  /\ tbody (page (run Dashboard.fetchArtifacts
                    [Turn id (Resolved (json_response (VArr [])))] blank_page))
     = [[Cell 8 "No artifacts found."]].
Proof.
  split; [reflexivity|].
  exact (proj1 (C7_empty_collection_placeholder
                  (json_response (VArr [])) id blank_page eq_refl)).
Defined.

Lemma record_row_lookup columns (m : gmap string value) j name :
  columns !! j = Some name ->
  record_row columns m !! j = Some (Cell 1 (cell_text (m !! name))).
Proof. intros H. unfold record_row. by rewrite list_lookup_fmap, H. Qed.

Lemma cell_text_falsy (field : option value) :
  (forall v, field = Some v -> truthy v = false) -> cell_text field = "".
Proof.
  intros H. destruct field as [v|]; [|reflexivity].
  cbn [cell_text]. by rewrite (H v eq_refl).
Qed.

(** C10: the cell of a field is written with [field || ''], so a falsy
    value (absent, [null], the number 0, [false], the empty string) gives
    an empty cell.  In both tables, after a refresh that is answered by
    records, the cell of a record for a column is empty whenever the
    record has no such field or holds a falsy value there, at every row
    and column; and a record with a falsy value in a field is rendered
    exactly as the same record without the field: a record whose [id]
    is 0 has an empty first cell. *)
Theorem C10_falsy_field_renders_empty :
  (forall v, truthy v = false -> dom_string (or_else v (VStr "")) = "")
  /\ truthy VUndefined = false /\ truthy VNull = false
  /\ truthy (VNum 0) = false /\ truthy (VBool false) = false
  /\ truthy (VStr "") = false
  /\ (forall (recs : list (gmap string value)) i m j name pg,
        recs !! i = Some m ->
        (forall v, m !! name = Some v -> truthy v = false) ->
        (Dashboard.artifact_columns !! j = Some name ->
         refreshed Dashboard.fetchArtifacts recs pg !! i ≫= (.!! j)
         = Some (Cell 1 ""))
        /\ (Correlation.correlation_columns !! j = Some name ->
            refreshed Correlation.fetchCorrelations recs pg !! i ≫= (.!! j)
            = Some (Cell 1 "")))
  /\ (forall (m : gmap string value) name v recs pg,
        truthy v = false ->
        refreshed Dashboard.fetchArtifacts (<[name := v]> m :: recs) pg
        = refreshed Dashboard.fetchArtifacts (delete name m :: recs) pg
        /\ refreshed Correlation.fetchCorrelations (<[name := v]> m :: recs) pg
           = refreshed Correlation.fetchCorrelations (delete name m :: recs) pg)
  /\ (forall (m : gmap string value) recs pg,
        refreshed Dashboard.fetchArtifacts (<["id" := VNum 0]> m :: recs) pg
        = refreshed Dashboard.fetchArtifacts (delete "id" m :: recs) pg
        /\ refreshed Dashboard.fetchArtifacts (<["id" := VNum 0]> m :: recs) pg
             !! 0 ≫= (.!! 0)
           = Some (Cell 1 "")).
Proof.
  split; [|do 5 (split; [reflexivity|]); split; [|split]].
  - intros v Hv. unfold or_else. by rewrite Hv.
  - intros recs i m j name pg Hi Hfalsy.
    assert (recs ≠ []) as Hne by (intros ->; discriminate Hi).
    unfold refreshed.
    rewrite (fetchArtifacts_records recs) by done.
    rewrite (fetchCorrelations_records recs) by done.
    cbn [page tbody set_tbody]. rewrite !list_lookup_fmap, Hi.
    cbn [fmap option_fmap option_map mbind option_bind].
    split; intros Hj; rewrite (record_row_lookup _ _ _ _ Hj);
      by rewrite cell_text_falsy.
  - intros m name v recs pg Hv. unfold refreshed.
    rewrite !(fetchArtifacts_records (_ :: recs)) by done.
    rewrite !(fetchCorrelations_records (_ :: recs)) by done.
    cbn [page tbody set_tbody fmap list_fmap].
    by rewrite !(record_row_falsy _ m name v).
  - intros m recs pg. unfold refreshed.
    rewrite !(fetchArtifacts_records (_ :: recs)) by done.
    cbn [page tbody set_tbody fmap list_fmap]. split.
    + by rewrite (record_row_falsy _ m "id" (VNum 0)).
    + simpl. by rewrite lookup_insert_eq.
Qed.

Lemma C10_falsy_field_renders_empty_witness :
  refreshed Dashboard.fetchArtifacts
    [{["id" := VNum 0; "name" := VStr "cmd.exe"]}] blank_page
    !! 0 ≫= (.!! 0)
  = Some (Cell 1 "")
  /\ refreshed Correlation.fetchCorrelations
       [{["timestamp" := VStr "2024-01-01"]}; {["detail" := VBool false]}]
       blank_page
       !! 1 ≫= (.!! 2)
     = Some (Cell 1 "").
Proof.
  split.
  - refine (proj1 (proj1 (proj2 (proj2 (proj2 (proj2 (proj2 (proj2
              C10_falsy_field_renders_empty))))))
              [{["id" := VNum 0; "name" := VStr "cmd.exe"]}] 0
              {["id" := VNum 0; "name" := VStr "cmd.exe"]} 0 "id" blank_page
              eq_refl _) eq_refl).
    intros v Hv. vm_compute in Hv. by injection Hv as <-.
  - refine (proj2 (proj1 (proj2 (proj2 (proj2 (proj2 (proj2 (proj2
              C10_falsy_field_renders_empty))))))
              [{["timestamp" := VStr "2024-01-01"]}; {["detail" := VBool false]}]
              1 {["detail" := VBool false]} 2 "detail" blank_page
              eq_refl _) eq_refl).
    intros v Hv. vm_compute in Hv. by injection Hv as <-.
Defined.

(** C3 as the spec states it fails for the correlation table: the rows
    that were rendered do not stay, the error row replaces them. *)
Lemma C3_previous_rows_kept_refuted :
  ~ (forall r pg, refresh_fails r ->
       forall old, old ∈ tbody pg ->
         old ∈ tbody (page (run Correlation.fetchCorrelations [Turn id r] pg))).
Proof.
  intros H.
  specialize (H (Rejected (TypeError "Failed to fetch"))
                (set_tbody [[Cell 1 "2024-01-01"]] blank_page) I
                [Cell 1 "2024-01-01"] ltac:(left)).
  vm_compute in H. apply list_elem_of_singleton in H. discriminate H.
Qed.

(** C3, amended: when a refresh fails (the request is rejected, or the
    body is not JSON), the correlation table is replaced by a single error
    row of column span 4, whatever it held; the artifact table is left as
    it was when the failure arrived, and the failure is shown in the status
    section, which is made visible. *)
Theorem C3_refresh_failure (r : reply) (mw : Page -> Page) (pg : Page) :
  refresh_fails r ->
  let a := run Dashboard.fetchArtifacts [Turn mw r] pg in
  let c := run Correlation.fetchCorrelations [Turn mw r] pg in
  tbody (page c) = [[Cell 4 "Error fetching correlations."]]
  /\ outcome c = Finished tt
  /\ tbody (page a)
     = tbody (mw (log (EFetch (GET "/api/artifacts")) pg))
  /\ statusHTML (page a) = banner "error" "Error fetching artifacts."
  /\ statusDisplay (page a) = "block"
  /\ outcome a = Finished tt.
Proof.
  intros Hr a c. subst a c.
  unfold Dashboard.fetchArtifacts, Correlation.fetchCorrelations.
  destruct r as [e|resp]; simpl in *; [done|].
  destruct (json resp) as [e|v]; [done|destruct Hr].
Qed.

Lemma C3_refresh_failure_witness :
  refresh_fails (Rejected (TypeError "Failed to fetch"))
  /\ tbody (page (run Correlation.fetchCorrelations
                    [Turn id (Rejected (TypeError "Failed to fetch"))]
                    (set_tbody [[Cell 1 "2024-01-01"]] blank_page)))
     = [[Cell 4 "Error fetching correlations."]].
Proof.
  split; [exact I|].
  exact (proj1 (C3_refresh_failure (Rejected (TypeError "Failed to fetch")) id
                  (set_tbody [[Cell 1 "2024-01-01"]] blank_page) I)).
Defined.

End Refresh.

(** ** The export form *)

Section ExportForm.
Import Js Dom Common.

#[local] Arguments download_name : simpl never.



End ExportForm.

(** ** The markup of the status section *)

Section StatusMarkup.
Import Js Regex Dom Common.

Lemma chars_app (a b : string) : chars (a +:+ b) = chars a ++ chars b.
Proof. induction a as [|c a IH]; simpl; [reflexivity|by rewrite IH]. Qed.

Lemma strip_prefix_app w r : strip_prefix w (w ++ r) = Some r.
Proof.
  induction w as [|c w IH]; [reflexivity|].
  cbn [app strip_prefix]. by rewrite Ascii.eqb_refl.
Qed.

Lemma span_run p l c r :
  forallb p l = true -> p c = false -> span p (l ++ c :: r) = (l, c :: r).
Proof.
  intros Hl Hc. induction l as [|x l IH]; cbn [app span].
  - by rewrite Hc.
  - cbn [forallb] in Hl. apply andb_prop in Hl as [Hx Hl].
    rewrite Hx, IH by done. reflexivity.
Qed.

Lemma chars_banner type text :
  chars (banner type text)
  = chars "<p class="
      ++ dquote :: chars type ++ dquote :: ">"%char :: chars text ++ chars "</p>".
Proof. unfold banner. by rewrite !chars_app. Qed.

(** The markup that [showStatus] assigns is parsed to one paragraph with
    the text, when the text is plain. *)
Lemma paragraph_of_banner type text :
  forallb attribute_char (chars type) = true ->
  plain text = true ->
  paragraph_of (banner type text) = Some (Paragraph type text).
Proof.
  intros Htype Htext. unfold paragraph_of.
  rewrite chars_banner, strip_prefix_app, Ascii.eqb_refl.
  rewrite (span_run attribute_char (chars type)) by done.
  cbn [fst snd strip_prefix]. rewrite !Ascii.eqb_refl.
  change (chars "</p>") with ("<"%char :: chars "/p>").
  rewrite (span_run plain_char (chars text)) by done.
  cbn [fst snd].
  change (strip_prefix ("<"%char :: chars "/p>") ("<"%char :: chars "/p>"))
    with (Some (@nil ascii)).
  by rewrite !String.string_of_list_ascii_of_string.
Qed.

Lemma shows_intro pg type text :
  forallb attribute_char (chars type) = true ->
  statusHTML pg = banner type text ->
  statusDisplay pg = "block" ->
  shows pg type text.
Proof.
  intros Htype Hhtml Hdisplay. split; [exact Hhtml|]. split; [exact Hdisplay|].
  intros Htext. unfold displayed. rewrite Hhtml.
  by apply paragraph_of_banner.
Qed.

End StatusMarkup.

(** ** Commands answered by a status and a message *)

Section Commands.
Import Js Dom Common.

Lemma strict_eq_str_true (o : option value) (s : string) :
  strict_eq_str (default VUndefined o) s = true <-> o = Some (VStr s).
Proof.
  destruct o as [v|]; simpl; [|split; discriminate].
  destruct v; simpl; try (split; [discriminate|intros [=]]).
  rewrite String.eqb_eq. split; [by intros ->|by intros [= ->]].
Qed.

Lemma strict_eq_str_false (o : option value) (s : string) :
  o ≠ Some (VStr s) -> strict_eq_str (default VUndefined o) s = false.
Proof.
  intros H. destruct (strict_eq_str _ _) eqn:E; [|done].
  by apply strict_eq_str_true in E.
Qed.

(** C5 as the spec states it fails: on the failure path the text shown
    is not the message itself, it is the message after "Error: ". *)
Lemma C5_message_verbatim_refuted :
  ~ (forall (m : gmap string value) resp mw pg,
       json resp = inr (VObj m) ->
       m !! "status" ≠ Some (VStr "success") ->
       shown_after Dashboard.parseShellbagsBtn_click resp mw pg
       = banner "error" (to_string (default VUndefined (m !! "message")))).
Proof.
  intros H.
  specialize (H {["status" := VStr "error"; "message" := VStr "boom"]}
                (Response true None (inr "") (inr (VObj
                   {["status" := VStr "error"; "message" := VStr "boom"]})))
                id blank_page eq_refl).
  vm_compute in H. discriminate H; intros [=].
Qed.

(** C5, amended: for the three commands that are answered by an object
    with [status] and [message] (parse folder, parse registry artifacts,
    clear dataset), what is shown depends on [status] only, whatever the
    folder input holds for the two commands that do not read it: when
    [status] is the string "success" the message is shown as information,
    and for every other [status] (absent, another string, not a string)
    the text shown as an error is "Error: " followed by the message.  The
    message is one that has a string; shown means that the status section
    is made visible and is assigned the paragraph of that class around
    the text, which the browser displays as that text when the text is
    plain (no less-than sign, ampersand, NUL or carriage return). *)
Theorem C5_status_discriminator
    (m : gmap string value) (resp : response) (mw : Page -> Page) (pg : Page) :
  json resp = inr (VObj m) ->
  printable (default VUndefined (m !! "message")) = true ->
  let message := to_string (default VUndefined (m !! "message")) in
  let answered (command : Prog unit) :=
    page (run command [Turn mw (Resolved resp)] pg) in
  let all_show (type text : string) :=
    (folderPath pg ≠ "" ->
     shows (answered Dashboard.parseFolderBtn_click) type text)
    /\ shows (answered Dashboard.parseShellbagsBtn_click) type text
    /\ shows (answered (Dashboard.clearDbBtn_click true)) type text in
  (m !! "status" = Some (VStr "success") -> all_show "info" message)
  /\ (m !! "status" ≠ Some (VStr "success") ->
      all_show "error" ("Error: " +:+ message)).
Proof.
  intros Hjson _ message answered all_show. subst answered all_show.
  unfold Dashboard.parseFolderBtn_click,
    Dashboard.parseShellbagsBtn_click, Dashboard.clearDbBtn_click,
    Dashboard.on_status_body.
  split; intros Hs; (split; [intros Hpath; apply String.eqb_neq in Hpath|split]);
    apply shows_intro; try reflexivity;
    simpl; rewrite ?Hpath; simpl; rewrite Hjson; simpl;
    first [ by rewrite (proj2 (strict_eq_str_true _ _) Hs)
          | by rewrite strict_eq_str_false ].
Qed.

Lemma C5_status_discriminator_witness :
  json (json_response (VObj failure_body)) = inr (VObj failure_body)
  /\ printable (default VUndefined (failure_body !! "message")) = true
  /\ failure_body !! "status" ≠ Some (VStr "success")
  /\ shows (page (run Dashboard.parseShellbagsBtn_click
                    [Turn id (Resolved (json_response (VObj failure_body)))]
                    blank_page))
       "error" "Error: boom".
Proof.
  assert (Hstatus : failure_body !! "status" ≠ Some (VStr "success"))
    by (vm_compute; intros [=]).
  split; [reflexivity|]. split; [reflexivity|]. split; [exact Hstatus|].
  exact (proj1 (proj2 (proj2
    (C5_status_discriminator failure_body (json_response (VObj failure_body))
       id blank_page eq_refl eq_refl) Hstatus))).
Defined.

End Commands.

(** ** Clearing the dataset *)

Section ClearDataset.
Import Js Dom Common.

Lemma requests_log_fetch req pg :
  requests (log (EFetch req) pg) = requests pg ++ [req].
Proof. unfold requests, log. simpl. by rewrite omap_app. Qed.




End ClearDataset.

(** ** The theme *)

Section Theme.
Import Js Dom Common.

(** C8 as the spec states it fails: the first thing the script does when
    the page loads is not to read the saved theme, it is to request the
    artifacts. *)
Lemma C8_theme_first_refuted :
  ~ (forall pg, journal pg = [] ->
       head (journal (page (run Dashboard.main [] pg)))
       = Some (EStorageGet "theme")).
Proof.
  intros H. specialize (H blank_page eq_refl). vm_compute in H. discriminate H.
Qed.

Lemma run_apply_saved_theme pg :
  page (run apply_saved_theme [] pg) =
  let t := theme_on_load pg in
  set_toggleChecked (String.eqb t "dark")
    (log (EStorageSet "theme" t)
       (set_storage (<["theme" := t]> (storage pg))
          (set_dataTheme (Some t) (log (EStorageGet "theme") pg)))).
Proof.
  unfold apply_saved_theme, theme_on_load, setTheme.
  cbn [run bind mbind Prog_bind update read].
  destruct (storage (log (EStorageGet "theme") pg) !! "theme") as [t|] eqn:Ht.
  all: cbn [storage log set_journal] in Ht; rewrite Ht.
  - destruct (String.eqb t "") eqn:Et; cbn [negb];
      [|destruct (String.eqb t "dark") eqn:Ed]; reflexivity.
  - reflexivity.
Qed.

Lemma journal_logs (l : list effect) pg :
  journal (foldl (fun p e => log e p) pg l) = journal pg ++ l.
Proof.
  revert pg. induction l as [|e l IH]; intros pg; simpl.
  - by rewrite app_nil_r.
  - rewrite IH. unfold log. simpl. by rewrite <- app_assoc.
Qed.

Lemma storage_logs (l : list effect) pg :
  storage (foldl (fun p e => log e p) pg l) = storage pg.
Proof. revert pg. induction l as [|e l IH]; intros pg; simpl; [done|by rewrite IH]. Qed.

Lemma applies_saved_theme_last_intro main table listeners pg :
  page (run main [] pg)
  = page (run apply_saved_theme []
            (foldl (fun p e => log e p) pg
               (EFetch (GET table) :: listeners))) ->
  applies_saved_theme_last main table listeners pg.
Proof.
  intros Hmain. unfold applies_saved_theme_last. cbv zeta.
  rewrite Hmain, run_apply_saved_theme. cbv zeta.
  assert (theme_on_load
            (foldl (fun p e => log e p) pg
               (EFetch (GET table) :: listeners))
          = theme_on_load pg) as ->.
  { unfold theme_on_load. by rewrite storage_logs. }
  cbn [dataTheme toggleChecked storage journal log set_toggleChecked
       set_storage set_dataTheme set_journal].
  rewrite lookup_insert_eq, journal_logs.
  repeat split. rewrite <- !app_assoc. reflexivity.
Qed.

Lemma run_Spawn_page {A : Type} (q : Prog unit) (k : Prog A) sched pg :
  page (run (Spawn q k) sched pg) = page (run k sched (page (run q [] pg))).
Proof. reflexivity. Qed.

Lemma run_listen {A : Type} target type (k : Prog A) sched pg :
  run (addEventListener target type ;; k) sched pg
  = run k sched (log (EListen target type) pg).
Proof. reflexivity. Qed.

Lemma fetchArtifacts_issued pg :
  page (run Dashboard.fetchArtifacts [] pg)
  = log (EFetch (GET "/api/artifacts")) pg.
Proof. reflexivity. Qed.

Lemma fetchCorrelations_issued pg :
  page (run Correlation.fetchCorrelations [] pg)
  = log (EFetch (GET "/api/correlations")) pg.
Proof. reflexivity. Qed.

Lemma main_applies_saved_theme_last pg :
  applies_saved_theme_last Dashboard.main "/api/artifacts"
    dashboard_listeners pg
  /\ applies_saved_theme_last Correlation.main "/api/correlations"
       correlation_listeners pg.
Proof.
  split; apply applies_saved_theme_last_intro.
  - unfold Dashboard.main.
    rewrite run_Spawn_page, fetchArtifacts_issued, !run_listen. reflexivity.
  - unfold Correlation.main.
    rewrite run_Spawn_page, fetchCorrelations_issued, !run_listen. reflexivity.
Qed.

Lemma setTheme_persists t pg :
  let p := page (run (setTheme t) [] pg) in
  storage p !! "theme" = Some t
  /\ dataTheme p = Some t
  /\ toggleChecked p = String.eqb t "dark".
Proof.
  unfold setTheme. simpl.
  destruct (String.eqb t "dark"); simpl; rewrite lookup_insert_eq;
    repeat split.
Qed.

(** C8, amended: [setTheme] writes the value to the storage (and sets the
    attribute and the toggle); when a page loads, either script requests
    its table and registers its listeners, and then, as its last step,
    reads the saved theme and applies it, light when nothing is saved; so a
    page that is loaded on the storage left by [setTheme('dark')] comes up
    dark with no call from the user. *)
Theorem C8_theme_persisted_and_applied_on_load (pg : Page) :
  (forall t,
     let p := page (run (setTheme t) [] pg) in
     storage p !! "theme" = Some t
     /\ dataTheme p = Some t
     /\ toggleChecked p = String.eqb t "dark")
  /\ applies_saved_theme_last Dashboard.main "/api/artifacts"
       dashboard_listeners pg
  /\ applies_saved_theme_last Correlation.main "/api/correlations"
       correlation_listeners pg
  /\ (storage pg !! "theme" = None -> theme_on_load pg = "light")
  /\ (forall before,
        storage pg = storage (page (run (setTheme "dark") [] before)) ->
        let d := page (run Dashboard.main [] pg) in
        let c := page (run Correlation.main [] pg) in
        dataTheme d = Some "dark" /\ toggleChecked d = true
        /\ dataTheme c = Some "dark" /\ toggleChecked c = true).
Proof.
  destruct (main_applies_saved_theme_last pg) as [Hd Hc].
  split; [|split; [exact Hd|split; [exact Hc|split]]].
  - intros t. apply setTheme_persists.
  - unfold theme_on_load. by intros ->.
  - intros before Hst.
    assert (theme_on_load pg = "dark") as Ht.
    { unfold theme_on_load. rewrite Hst.
      by rewrite (proj1 (setTheme_persists "dark" before)). }
    destruct Hd as (Hd1 & Hd2 & _), Hc as (Hc1 & Hc2 & _).
    cbv zeta. by rewrite Hd1, Hd2, Hc1, Hc2, Ht.
Qed.

Lemma C8_theme_persisted_and_applied_on_load_witness :
  storage reloaded_dark = storage (page (run (setTheme "dark") [] blank_page))
  /\ dataTheme (page (run Dashboard.main [] reloaded_dark)) = Some "dark"
  /\ toggleChecked (page (run Dashboard.main [] reloaded_dark)) = true.
Proof.
  split; [reflexivity|].
  pose proof (proj2 (proj2 (proj2 (proj2
    (C8_theme_persisted_and_applied_on_load reloaded_dark)))) blank_page
    eq_refl) as H.
  exact (conj (proj1 H) (proj1 (proj2 H))).
Defined.

End Theme.

(** ** The status section and its timers *)

Section StatusTimers.
Import Js Dom Common.
#[local] Open Scope Z_scope.

Lemma showStatus_page message type pg :
  page (run (Dashboard.showStatus message type) [] pg)
  = set_timers (timers pg ++ [clock pg + 5000])
      (set_statusDisplay "block"
         (set_statusHTML (banner type (to_string message)) pg)).
Proof. reflexivity. Qed.

Lemma elapse_timers t pg :
  timers (elapse t pg) = filter (fun d => ¬ d <= t) (timers pg).
Proof. unfold elapse. by destruct (filter _ (timers pg)). Qed.

Lemma elapse_statusHTML t pg : statusHTML (elapse t pg) = statusHTML pg.
Proof. unfold elapse. by destruct (filter _ (timers pg)). Qed.

Lemma elapse_clock t pg : clock (elapse t pg) = t.
Proof. unfold elapse. by destruct (filter _ (timers pg)). Qed.

(** A callback that is due hides the section. *)
Lemma elapse_hides t d pg :
  d ∈ timers pg -> d <= t -> statusDisplay (elapse t pg) = "none".
Proof.
  intros Hd Hle. unfold elapse.
  destruct (filter _ (timers pg)) as [|x l] eqn:Hf; [|reflexivity].
  assert (d ∈ filter (fun d => d <= t) (timers pg)) as Hin
    by (by apply list_elem_of_filter).
  rewrite Hf in Hin. by apply elem_of_nil in Hin.
Qed.

(** When no callback is due the section stays as it is. *)
Lemma elapse_keeps t pg :
  Forall (fun d => t < d) (timers pg) ->
  statusDisplay (elapse t pg) = statusDisplay pg.
Proof.
  intros Hall. unfold elapse.
  destruct (filter _ (timers pg)) as [|x l] eqn:Hf; [reflexivity|].
  assert (x ∈ filter (fun d => d <= t) (timers pg)) as Hin
    by (rewrite Hf; left).
  apply list_elem_of_filter in Hin as [Hle Hx].
  rewrite Forall_forall in Hall. specialize (Hall x Hx). lia.
Qed.

(** C9: [showStatus(msg, 'error')] at time [t0] and [showStatus(msg2,
    'info')] at a time [t1] less than 5 seconds later.  After the second
    call the section shows [msg2] and is visible, and both callbacks are
    pending, the one of the first call still due at [t0 + 5000].  When the
    clock reaches [t0 + 5000] the section is hidden, still holding [msg2],
    while the callback of the second call is yet to come whenever
    [t0 < t1].  Up to then the section stays visible if no older callback
    was pending. *)
Theorem C9_stale_timer_hides_later_message
    (msg msg2 : value) (t1 : Z) (pg : Page) :
  let t0 := clock pg in
  t0 <= t1 < t0 + 5000 ->
  let first := page (run (Dashboard.showStatus msg "error") [] pg) in
  let second :=
    page (run (Dashboard.showStatus msg2 "info") [] (elapse t1 first)) in
  statusHTML second = banner "info" (to_string msg2)
  /\ statusDisplay second = "block"
  /\ (t0 + 5000) ∈ timers second
  /\ (t1 + 5000) ∈ timers second
  /\ statusDisplay (elapse (t0 + 5000) second) = "none"
  /\ statusHTML (elapse (t0 + 5000) second) = banner "info" (to_string msg2)
  /\ (t0 < t1 -> (t1 + 5000) ∈ timers (elapse (t0 + 5000) second))
  /\ (timers pg = [] ->
      forall t, t1 <= t < t0 + 5000 ->
        statusDisplay (elapse t second) = "block").
Proof.
  intros t0 Ht first second. subst first second.
  rewrite !showStatus_page.
  assert (Hpending :
    (t0 + 5000) ∈ filter (fun d => ¬ d <= t1) (timers pg ++ [t0 + 5000])).
  { apply list_elem_of_filter. split; [lia|].
    apply elem_of_app. right. left. }
  cbn [statusHTML statusDisplay timers clock set_timers set_statusDisplay
       set_statusHTML].
  rewrite elapse_timers, elapse_clock, elapse_statusHTML.
  cbn [statusHTML statusDisplay timers clock set_timers set_statusDisplay
       set_statusHTML].
  split; [reflexivity|]. split; [reflexivity|].
  split; [apply elem_of_app; by left|].
  split; [apply elem_of_app; right; left|].
  split.
  { apply (elapse_hides _ (t0 + 5000)); [|lia].
    cbn [timers set_timers]. apply elem_of_app. by left. }
  split; [reflexivity|].
  split.
  { intros Hlt. rewrite elapse_timers. cbn [timers set_timers].
    apply list_elem_of_filter. split; [lia|]. apply elem_of_app. right. left. }
  intros Hnone t Hrange. rewrite elapse_keeps; [reflexivity|].
  cbn [timers set_timers]. rewrite Hnone. simpl.
  rewrite filter_cons_True by lia.
  repeat constructor; lia.
Qed.

Lemma C9_stale_timer_hides_later_message_witness :
  clock blank_page <= 3000 < clock blank_page + 5000
  /\ statusDisplay
       (page (run (Dashboard.showStatus (VStr "done") "info") []
                (elapse 3000
                   (page (run (Dashboard.showStatus (VStr "failed") "error")
                            [] blank_page)))))
     = "block"
  /\ statusDisplay
       (elapse 5000
          (page (run (Dashboard.showStatus (VStr "done") "info") []
                   (elapse 3000
                      (page (run (Dashboard.showStatus (VStr "failed") "error")
                               [] blank_page))))))
     = "none".
Proof.
  assert (Ht : clock blank_page <= 3000 < clock blank_page + 5000)
    by (simpl; lia).
  split; [exact Ht|].
  pose proof (C9_stale_timer_hides_later_message (VStr "failed") (VStr "done")
                3000 blank_page Ht) as H.
  exact (conj (proj1 (proj2 H)) (proj1 (proj2 (proj2 (proj2 (proj2 H)))))).
Defined.

End StatusTimers.

(** ** The matcher is total: the fuel of a star never runs out *)

Section Fuel.
Import Regex.

Abbreviation fails := (fun (_ : list ascii) (_ : captures) => @None captures).

(** The result of a star depends on the continuation only through its
    values. *)
Lemma star_loop_ext step greedy k1 k2 fuel s caps :
  (forall s0 caps0 j1 j2,
     (forall s' c', j1 s' c' = j2 s' c') ->
     step s0 caps0 j1 = step s0 caps0 j2) ->
  (forall s' c', k1 s' c' = k2 s' c') ->
  star_loop step greedy k1 fuel s caps = star_loop step greedy k2 fuel s caps.
Proof.
  intros Hstep Hk. revert s caps.
  induction fuel as [|fuel IH]; intros s caps; cbn [star_loop].
  - by rewrite Hk.
  - rewrite Hk.
    rewrite (Hstep s caps _
               (fun s' caps' =>
                  if length s' <? length s
                  then star_loop step greedy k2 fuel s' caps' else None));
      [reflexivity|].
    intros s' c'. destruct (length s' <? length s); [apply IH|reflexivity].
Qed.

Lemma matcher_ext r s caps k1 k2 :
  (forall s' c', k1 s' c' = k2 s' c') ->
  matcher r s caps k1 = matcher r s caps k2.
Proof.
  revert s caps k1 k2.
  induction r as [cs|negated cs| |r1 IH1 r2 IH2|r1 IH1 r2 IH2|greedy r0 IH
                 |n r0 IH|n];
    intros s caps k1 k2 Hk; cbn [matcher].
  - destruct (strip_prefix cs s); [apply Hk|reflexivity].
  - destruct s as [|c s]; [reflexivity|].
    destruct (in_class negated cs c); [apply Hk|reflexivity].
  - destruct s as [|c s]; [reflexivity|].
    destruct (line_terminator c); [reflexivity|apply Hk].
  - apply IH1. intros s' c'. by apply IH2.
  - by rewrite (IH1 s caps k1 k2 Hk), (IH2 s caps k1 k2 Hk).
  - apply star_loop_ext; [|exact Hk]. intros s0 caps0 j1 j2 Hj. by apply IH.
  - apply IH. intros s' c'. apply Hk.
  - destruct (caps !! n) as [w|]; [|apply Hk].
    destruct (strip_prefix w s); [apply Hk|reflexivity].
Qed.

(** A match succeeds only through its continuation. *)
Lemma matcher_fails r s caps : matcher r s caps fails = None.
Proof.
  revert s caps.
  induction r as [cs|negated cs| |r1 IH1 r2 IH2|r1 IH1 r2 IH2|greedy r0 IH
                 |n r0 IH|n];
    intros s caps; cbn [matcher].
  - by destruct (strip_prefix cs s).
  - destruct s as [|c s]; [reflexivity|]. by destruct (in_class negated cs c).
  - destruct s as [|c s]; [reflexivity|]. by destruct (line_terminator c).
  - rewrite (matcher_ext r1 s caps _ fails); [apply IH1|]. intros s' c'. apply IH2.
  - by rewrite IH1, IH2.
  - generalize (length s) as fuel. intros fuel. revert s caps.
    induction fuel as [|fuel IHf]; intros s caps; cbn [star_loop].
    + by destruct greedy.
    + rewrite (matcher_ext r0 s caps _ fails); [rewrite IH; by destruct greedy|].
      intros s' c'. destruct (length s' <? length s); [apply IHf|reflexivity].
  - apply IH.
  - destruct (caps !! n) as [w|]; [|reflexivity]. by destruct (strip_prefix w s).
Qed.

(** Any fuel that is at least the length of the input gives the same
    result: the fuel that [matcher] passes never runs out. *)
Lemma star_loop_fuel r greedy k fuel1 fuel2 s caps :
  length s <= fuel1 -> length s <= fuel2 ->
  star_loop (matcher r) greedy k fuel1 s caps
  = star_loop (matcher r) greedy k fuel2 s caps.
Proof.
  revert fuel2 s caps.
  induction fuel1 as [|fuel1 IH]; intros fuel2 s caps H1 H2.
  - destruct s; simpl in H1; [|lia].
    destruct fuel2 as [|fuel2]; [reflexivity|]. cbn [star_loop].
    rewrite (matcher_ext r [] caps _ fails), matcher_fails; [reflexivity|].
    intros s' c'. reflexivity.
  - destruct fuel2 as [|fuel2].
    + destruct s; simpl in H2; [|lia]. cbn [star_loop].
      rewrite (matcher_ext r [] caps _ fails), matcher_fails; [reflexivity|].
      intros s' c'. reflexivity.
    + cbn [star_loop].
      rewrite (matcher_ext r s caps _
                 (fun s' caps' =>
                    if length s' <? length s
                    then star_loop (matcher r) greedy k fuel2 s' caps'
                    else None)); [reflexivity|].
      intros s' c'. destruct (length s' <? length s) eqn:Hlt; [|reflexivity].
      apply Nat.ltb_lt in Hlt. apply IH; lia.
Qed.

End Fuel.

(** ** The regular expression of the export handlers *)

Section FilenameRegex.
Import Regex Param.

Abbreviation K0 := (fun (_ : list ascii) (caps : captures) => Some caps).

(** A greedy star over a character class ends after the longest run,
    provided the continuation cannot succeed earlier when it fails
    there. *)
Lemma star_greedy_class negated cs k caps fuel s :
  (forall c s', in_class negated cs c = true ->
     k (skip (in_class negated cs) s') caps = None ->
     k (c :: s') caps = None) ->
  length s <= fuel ->
  star_loop (matcher (Class negated cs)) true k fuel s caps
  = k (skip (in_class negated cs) s) caps.
Proof.
  intros Hk. revert s.
  induction fuel as [|fuel IH]; intros s Hlen.
  - destruct s; simpl in Hlen; [reflexivity|lia].
  - destruct s as [|c s']; [reflexivity|].
    simpl in Hlen. simpl.
    destruct (in_class negated cs c) eqn:Hc; [|reflexivity].
    assert ((length s' <? S (length s')) = true) as -> by (apply Nat.ltb_lt; lia).
    rewrite IH by lia.
    destruct (k (skip _ s') caps) eqn:Hskip; [reflexivity|].
    by rewrite Hk.
Qed.

(** A lazy star over [.] followed by the character [q]: the first [q],
    unless a line terminator comes first. *)
Lemma star_lazy_dot (q : ascii) (F : list ascii -> captures) k caps fuel s :
  (forall s0, k s0 caps
     = match s0 with
       | c :: s' => if Ascii.eqb q c then Some (F s') else None
       | [] => None
       end) ->
  length s <= fuel ->
  star_loop (matcher Dot) false k fuel s caps = F <$> after_closing q s.
Proof.
  intros Hk. revert s.
  induction fuel as [|fuel IH]; intros s Hlen.
  - destruct s; simpl in Hlen; [|lia]. simpl. by rewrite Hk.
  - destruct s as [|c s']; simpl; rewrite Hk; [reflexivity|].
    simpl in Hlen.
    destruct (Ascii.eqb q c); [reflexivity|].
    destruct (line_terminator c); [reflexivity|].
    assert ((length s' <? S (length s')) = true) as -> by (apply Nat.ltb_lt; lia).
    apply IH. lia.
Qed.

Lemma take_head {A : Type} (x : A) (l : list A) :
  take (length (x :: l) - length l) (x :: l) = [x].
Proof.
  replace (length (x :: l) - length l) with 1 by (simpl; lia). reflexivity.
Qed.

Lemma in_class1_not_equals c :
  in_class true [";"%char; "="%char; LF] c = true -> Ascii.eqb "="%char c = false.
Proof.
  intros H. destruct (Ascii.eqb "="%char c) eqn:E; [|reflexivity].
  apply Ascii.eqb_eq in E. subst c. vm_compute in H. discriminate H.
Qed.

(** The value after the equals sign, by the alternative of group 1. *)
Lemma matcher_value v caps0 :
  caps0 !! 2 = None ->
  (.!! 1) <$>
    matcher
      (Group 1
         (Alt
            (Seq (Group 2 (Class false [squote; dquote]))
               (Seq (Star false Dot) (Backref 2)))
            (Star true (Class true [";"%char; LF]))))
      v caps0 K0
  = Some (Some (value v)).
Proof.
  intros Hcaps. unfold value, after_value.
  cbn [matcher].
  assert (Hbare :
    (.!! 1) <$>
      star_loop (matcher (Class true [";"%char; LF])) true
        (fun s' caps' => Some (<[1 := take (length v - length s') v]> caps'))
        (length v) v caps0
    = Some (Some (take (length v
                        - length (skip (in_class true [";"%char; LF]) v)) v))).
  { rewrite star_greedy_class; [|discriminate|lia].
    simpl. by rewrite lookup_insert_eq. }
  destruct v as [|q v']; [exact Hbare|].
  fold (is_quote q). destruct (is_quote q) eqn:Hq; [|exact Hbare].
  rewrite take_head.
  rewrite (star_lazy_dot q
             (fun rest => <[1 := take (length (q :: v') - length rest) (q :: v')]>
                            (<[2 := [q]]> caps0))); [| |lia].
  - destruct (after_closing q v') as [rest|]; [|exact Hbare].
    simpl. by rewrite lookup_insert_eq.
  - intros s0. rewrite lookup_insert_eq.
    destruct s0 as [|c s']; [reflexivity|]. simpl.
    by destruct (Ascii.eqb q c).
Qed.

Lemma matcher_Seq r1 r2 s caps k :
  matcher (Seq r1 r2) s caps k
  = matcher r1 s caps (fun s' caps' => matcher r2 s' caps' k).
Proof. reflexivity. Qed.

Lemma matcher_Lit cs s caps k :
  matcher (Lit cs) s caps k
  = match strip_prefix cs s with Some s' => k s' caps | None => None end.
Proof. reflexivity. Qed.

Lemma matcher_Star greedy r0 s caps k :
  matcher (Star greedy r0) s caps k
  = star_loop (matcher r0) greedy k (length s) s caps.
Proof. reflexivity. Qed.

(** At a position, the regular expression finds what [param_here]
    reads. *)
Lemma matcher_param_here s :
  (.!! 1) <$> matcher filenameRegex s ∅ K0 = Some <$> param_here s.
Proof.
  unfold filenameRegex, param_here.
  rewrite matcher_Seq, matcher_Lit.
  destruct (strip_prefix _ s) as [r|]; [|reflexivity].
  rewrite matcher_Seq, matcher_Star, star_greedy_class; [| |lia].
  - rewrite matcher_Seq, matcher_Lit.
    destruct (skip _ r) as [|e v]; [reflexivity|].
    cbn [strip_prefix].
    destruct (Ascii.eqb "="%char e); [|reflexivity].
    apply matcher_value. apply lookup_empty.
  - intros c s' Hc _. rewrite matcher_Seq, matcher_Lit. cbn [strip_prefix].
    by rewrite (in_class1_not_equals c Hc).
Qed.

(** [exec] finds the leftmost parameter. *)
Lemma exec_list_param s :
  (.!! 1) <$> exec_list filenameRegex s = Some <$> param s.
Proof.
  induction s as [|c s IH].
  - cbn [exec_list param]. pose proof (matcher_param_here []) as H.
    destruct (matcher filenameRegex [] ∅ K0), (param_here []);
      simpl in *; congruence.
  - cbn [exec_list param]. pose proof (matcher_param_here (c :: s)) as H.
    destruct (matcher filenameRegex (c :: s) ∅ K0), (param_here (c :: s));
      simpl in *; congruence.
Qed.

Lemma exec_group1 (d : string) :
  exec filenameRegex d ≫= group 1
  = String.string_of_list_ascii <$> param (String.list_ascii_of_string d).
Proof.
  unfold exec, group.
  pose proof (exec_list_param (String.list_ascii_of_string d)) as H.
  destruct (exec_list _ _) as [caps|], (param _) as [g|]; simpl in *;
    try congruence.
  injection H as H. by rewrite H.
Qed.

End FilenameRegex.

(** ** What the scan finds in a well-formed header *)

Section ParamShapes.
Import Regex Param.

Abbreviation fname := (String.list_ascii_of_string "filename").
Abbreviation class1 := (in_class true [";"%char; "="%char; LF]).
Abbreviation class2 := (in_class true [";"%char; LF]).





Lemma strip_prefix_app_cons p y e v r :
  e ∉ p -> strip_prefix p (y ++ e :: v) = Some r ->
  exists l, y = p ++ l /\ r = l ++ e :: v.
Proof.
  revert y. induction p as [|a p IH]; intros y He; simpl.
  - intros [= <-]. by exists y.
  - destruct y as [|b y]; simpl.
    + destruct (Ascii.eqb_spec a e) as [->|]; [|discriminate].
      destruct He. left.
    + destruct (Ascii.eqb_spec a b) as [->|]; [|discriminate].
      intros H. destruct (IH y) as (l & -> & ->); [|done|by exists l].
      intros Hin. apply He. by right.
Qed.

Lemma skip_to_equals l v :
  "="%char ∉ l ->
  skip class1 (l ++ "="%char :: v) = "="%char :: v
  \/ exists c rest, skip class1 (l ++ "="%char :: v) = c :: rest
                    /\ Ascii.eqb "="%char c = false.
Proof.
  induction l as [|c l IH]; intros Hno; cbn [app skip].
  - left. reflexivity.
  - destruct (class1 c) eqn:Hc.
    + apply IH. intros Hin. apply Hno. by right.
    + right. exists c, (l ++ "="%char :: v). split; [reflexivity|].
      apply Ascii.eqb_neq. intros <-. apply Hno. left.
Qed.

Lemma equals_not_in_fname : "="%char ∉ fname.
Proof. intros H. repeat (apply elem_of_cons in H as [H|H]; [discriminate H|]).
  by apply elem_of_nil in H. Qed.

(** Before the first equals sign, a match can only be one that ends at
    that equals sign. *)
Lemma param_here_before x v :
  "="%char ∉ x ->
  param_here (x ++ fname ++ "="%char :: v) = None
  \/ param_here (x ++ fname ++ "="%char :: v) = Some (value v).
Proof.
  intros Hx. unfold param_here.
  destruct (strip_prefix fname _) as [r|] eqn:Hr; [|by left].
  rewrite app_assoc in Hr.
  apply strip_prefix_app_cons in Hr as (l & Hy & ->);
    [|apply equals_not_in_fname].
  assert ("="%char ∉ l) as Hl.
  { intros Hin. assert ("="%char ∈ x ++ fname) as H
      by (rewrite Hy; apply elem_of_app; by right).
    apply elem_of_app in H as [H|H]; [done|by apply equals_not_in_fname]. }
  destruct (skip_to_equals l v Hl) as [->|(c & rest & -> & ->)].
  - right. reflexivity.
  - by left.
Qed.

(** When no equals sign comes before it, [filename=] introduces the
    parameter. *)
Lemma param_first_equals pre v :
  "="%char ∉ pre ->
  param (pre ++ fname ++ "="%char :: v) = Some (value v).
Proof.
  induction pre as [|c pre IH]; intros Hno.
  - reflexivity.
  - change ((c :: pre) ++ fname ++ "="%char :: v)
      with (c :: (pre ++ fname ++ "="%char :: v)).
    cbn [param].
    destruct (param_here_before (c :: pre) v Hno) as [H|H];
      change ((c :: pre) ++ fname ++ "="%char :: v)
        with (c :: (pre ++ fname ++ "="%char :: v)) in H;
      rewrite H; [|reflexivity].
    apply IH. intros Hin. apply Hno. by right.
Qed.

End ParamShapes.

Section ValueShapes.
Import Regex Param.

Abbreviation class2 := (in_class true [";"%char; LF]).


Lemma take_all_but {A : Type} (l post : list A) :
  take (length (l ++ post) - length post) (l ++ post) = l.
Proof.
  rewrite length_app. replace (length l + length post - length post) with
    (length l) by lia. apply take_app_length.
Qed.


Lemma skip_token tok post :
  Forall (fun c => class2 c = true) tok ->
  (post = [] \/ exists c post', post = c :: post' /\ class2 c = false) ->
  skip class2 (tok ++ post) = post.
Proof.
  intros Htok Hpost.
  induction tok as [|c tok IH]; cbn [app skip].
  - destruct Hpost as [->|(c & post' & -> & Hc)]; [reflexivity|].
    cbn [skip]. by rewrite Hc.
  - apply Forall_cons in Htok as [Hc Htok]. rewrite Hc. by apply IH.
Qed.




End ValueShapes.

(** ** The name of the download *)

Section DownloadName.
Import Js Regex Param Dom Common.

Lemma of_chars_nonempty (l : list ascii) :
  String.eqb (of_chars l) "" = match l with [] => true | _ => false end.
Proof. by destruct l. Qed.

(** Deleting the matches of a character class deletes the characters of
    the class. *)
Lemma delete_matches_class negated cs fuel s :
  length s <= fuel ->
  delete_matches (Class negated cs) fuel s
  = filter (fun c => in_class negated cs c = false) s.
Proof.
  revert s. induction fuel as [|fuel IH]; intros [|c s] Hlen;
    simpl in Hlen; try lia; try reflexivity.
  cbn [delete_matches matcher].
  destruct (in_class negated cs c) eqn:Hc.
  - rewrite lookup_insert_eq, take_head. cbn [default length drop].
    rewrite filter_cons_False by (by rewrite Hc). apply IH. lia.
  - rewrite filter_cons_True by exact Hc. f_equal. apply IH. lia.
Qed.

Lemma replace_all_empty_class negated cs (l : list ascii) :
  replace_all_empty (Class negated cs) (of_chars l)
  = of_chars (filter (fun c => in_class negated cs c = false) l).
Proof.
  unfold replace_all_empty.
  rewrite String.list_ascii_of_string_of_list_ascii, delete_matches_class;
    [reflexivity|].
  clear. induction l as [|c l IH]; simpl; lia.
Qed.

(** The name of the download in terms of the scan of the header. *)
Lemma download_name_param fallback d :
  download_name fallback (Some d)
  = if negb (String.eqb d "") && includes d "attachment" then
      match param (chars d) with
      | Some (c :: g) =>
          of_chars (filter (fun x => in_class false [squote; dquote] x = false)
                  (c :: g))
      | Some [] | None => fallback
      end
    else fallback.
Proof.
  unfold download_name.
  destruct (negb (String.eqb d "") && includes d "attachment"); [|reflexivity].
  pose proof (exec_group1 d) as H.
  destruct (exec filenameRegex d) as [caps|]; simpl in H.
  - destruct (group 1 caps) as [g|], (param (chars d)) as [gl|];
      simpl in H; try discriminate H; [|reflexivity].
    injection H as ->. rewrite of_chars_nonempty.
    destruct gl as [|c gl]; [reflexivity|]. cbn [negb].
    apply replace_all_empty_class.
  - destruct (param (chars d)); [discriminate H|reflexivity].
Qed.

Lemma includes_nonempty d pat :
  includes d pat = true -> pat ≠ "" -> String.eqb d "" = false.
Proof.
  intros H Hpat. destruct d; [|reflexivity].
  destruct pat; [done|]. discriminate H.
Qed.

End DownloadName.

(** ** The leftmost parameter *)

Section Leftmost.
Import Js Regex Param Dom Common.

Abbreviation fname := (String.list_ascii_of_string "filename").
Abbreviation class1 := (in_class true [";"%char; "="%char; LF]).
Abbreviation class2 := (in_class true [";"%char; LF]).

Lemma skip_run p l e v :
  Forall (fun c => p c = true) l -> p e = false -> skip p (l ++ e :: v) = e :: v.
Proof.
  intros Hl He. induction Hl as [|c l Hc _ IH]; cbn [app skip].
  - by rewrite He.
  - by rewrite Hc.
Qed.

Lemma class1_not_equals l :
  Forall (fun c => class1 c = true) l -> "="%char ∉ l.
Proof.
  intros Hl Hin. rewrite Forall_forall in Hl. by specialize (Hl _ Hin).
Qed.

(** Before the first equals sign, a match can only be one that ends at
    that equals sign, whatever stands between the name and the sign. *)
Lemma param_here_before_run x mid v :
  "="%char ∉ x ->
  Forall (fun c => class1 c = true) mid ->
  param_here (x ++ fname ++ mid ++ "="%char :: v) = None
  \/ param_here (x ++ fname ++ mid ++ "="%char :: v) = Some (value v).
Proof.
  intros Hx Hmid. unfold param_here.
  destruct (strip_prefix fname _) as [r|] eqn:Hr; [|by left].
  rewrite !app_assoc in Hr.
  apply strip_prefix_app_cons in Hr as (l & Hy & ->);
    [|apply equals_not_in_fname].
  assert ("="%char ∉ l) as Hl.
  { intros Hin. assert ("="%char ∈ (x ++ fname) ++ mid) as H
      by (rewrite Hy; apply elem_of_app; by right).
    apply elem_of_app in H as [H|H]; [|by apply class1_not_equals in H].
    apply elem_of_app in H as [H|H]; [done|by apply equals_not_in_fname]. }
  destruct (skip_to_equals l v Hl) as [->|(c & rest & -> & ->)].
  - right. reflexivity.
  - by left.
Qed.

Lemma param_here_Some s g : param_here s = Some g -> param s = Some g.
Proof. intros H. destruct s; cbn [param]; by rewrite H. Qed.

Lemma param_first_equals_run pre mid v :
  "="%char ∉ pre ->
  Forall (fun c => class1 c = true) mid ->
  param (pre ++ fname ++ mid ++ "="%char :: v) = Some (value v).
Proof.
  intros Hno Hmid. induction pre as [|c pre IH].
  - apply param_here_Some. unfold param_here.
    change (strip_prefix fname ([] ++ fname ++ mid ++ "="%char :: v))
      with (Some (mid ++ "="%char :: v)).
    cbv iota. rewrite skip_run by done. reflexivity.
  - change ((c :: pre) ++ fname ++ mid ++ "="%char :: v)
      with (c :: (pre ++ fname ++ mid ++ "="%char :: v)).
    cbn [param].
    destruct (param_here_before_run (c :: pre) mid v Hno Hmid) as [H|H];
      change ((c :: pre) ++ fname ++ mid ++ "="%char :: v)
        with (c :: (pre ++ fname ++ mid ++ "="%char :: v)) in H;
      rewrite H; [|reflexivity].
    apply IH. intros Hin. apply Hno. by right.
Qed.

(** A token that does not open with a quote is taken up to the
    semicolon, the line feed or the end of the header, quotes inside it
    included. *)
Lemma value_token c tok post :
  is_quote c = false ->
  Forall (fun x => class2 x = true) (c :: tok) ->
  (post = [] \/ exists x post', post = x :: post' /\ class2 x = false) ->
  value ((c :: tok) ++ post) = c :: tok.
Proof.
  intros Hc Htok Hpost. unfold value.
  assert (after_value ((c :: tok) ++ post) = post) as ->; [|apply take_all_but].
  unfold after_value. rewrite skip_token by done.
  cbn [app]. by rewrite Hc.
Qed.









End Leftmost.

Section ExportedFile.
Import Js Regex Param Dom Common.

#[local] Arguments download_name : simpl never.










End ExportedFile.

(** * Further properties of the scripts *)

(** ** Refresh on any JSON body *)

Section RefreshAnyBody.

Lemma throws_bind_l {A B : Type} (p : Prog A) (f : A -> Prog B) pg pg1 e :
  throws p pg pg1 e -> throws (bind p f) pg pg1 e.
Proof. induction 1; simpl; constructor; auto. Qed.

Lemma throws_bind_r {A B : Type} (p : Prog A) (f : A -> Prog B) pg pg1 pg2 a e :
  evals p pg pg1 a -> throws (f a) pg1 pg2 e -> throws (bind p f) pg pg2 e.
Proof. induction 1; simpl; intros Hf; [assumption|constructor; auto ..]. Qed.

Lemma throws_eq {A : Type} (p : Prog A) pg pg1 pg2 e :
  throws p pg pg1 e -> pg1 = pg2 -> throws p pg pg2 e.
Proof. by intros H <-. Qed.

Lemma run_try_throws {A : Type} (p : Prog A) h pg pg1 e sched :
  throws p pg pg1 e -> run (try_catch p h) sched pg = run (h e) sched pg1.
Proof. induction 1; simpl; auto. Qed.

(** A cell for a field that reads as [v]. *)
Lemma evals_put_cell_value x name v pg T cells :
  get_prop x name = inr v ->
  tbody pg = T ++ [cells] ->
  evals (put_cell (length T) x name) pg
    (set_tbody (T ++ [cells ++ [Cell 1 (dom_string (or_else v (VStr "")))]]) pg)
    tt.
Proof.
  intros Hx HT. unfold put_cell. cbn [mbind Prog_bind bind insertCell].
  constructor. constructor. rewrite Hx. cbn [lift bind set_textContent update].
  constructor. cbn [tbody set_tbody].
  rewrite HT, list_lookup_middle by reflexivity.
  rewrite (alter_app_r_alt _ T [cells]) by lia.
  rewrite Nat.sub_diag. cbn [alter list_alter default length].
  rewrite (alter_app_r_alt _ T) by lia.
  rewrite Nat.sub_diag. cbn [alter list_alter id].
  rewrite (alter_app_r_alt _ cells) by lia.
  rewrite Nat.sub_diag. cbn [alter list_alter colspan].
  constructor.
Qed.

(** On [null] the cell is inserted and the read of the field throws. *)
Lemma throws_put_cell_nullish x name pg T cells :
  nullish x = true ->
  tbody pg = T ++ [cells] ->
  exists e, throws (put_cell (length T) x name) pg
              (set_tbody (T ++ [cells ++ [Cell 1 ""]]) pg) e.
Proof.
  intros Hx HT.
  assert (exists e, get_prop x name = inl e) as [e He]
    by (destruct x; try discriminate Hx; eexists; reflexivity).
  exists e. unfold put_cell. cbn [mbind Prog_bind bind insertCell].
  constructor. constructor. rewrite He. cbn [lift bind].
  eapply throws_eq; [constructor|]. cbn [tbody set_tbody].
  rewrite HT, (alter_app_r_alt _ T [cells]) by lia.
  by rewrite Nat.sub_diag.
Qed.

Lemma evals_artifact_element x pg :
  nullish x = false ->
  evals
    (r ← insertRow;
     put_cell r x "id";;
     put_cell r x "artifact_type";;
     put_cell r x "name";;
     put_cell r x "path";;
     put_cell r x "timestamp";;
     put_cell r x "last_access";;
     put_cell r x "extra";;
     put_cell r x "details")
    pg
    (set_tbody (tbody pg ++ [element_row Dashboard.artifact_columns x]) pg) tt.
Proof.
  intros Hx.
  destruct x as [| |b|z|s|l|m]; try discriminate Hx;
    [| | | |apply evals_artifact_row];
    (eapply evals_bind; [repeat constructor|]; cbv beta;
     repeat (eapply evals_bind;
             [by apply (evals_put_cell_value _ _ VUndefined _ (tbody pg))|];
             cbv beta);
     eapply evals_eq;
     [by apply (evals_put_cell_value _ _ VUndefined _ (tbody pg))|reflexivity]).
Qed.

Lemma evals_correlation_element x pg :
  nullish x = false ->
  evals
    (r ← insertRow;
     put_cell r x "timestamp";;
     put_cell r x "artifact_type";;
     put_cell r x "detail";;
     put_cell r x "anomaly")
    pg
    (set_tbody (tbody pg ++ [element_row Correlation.correlation_columns x]) pg)
    tt.
Proof.
  intros Hx.
  destruct x as [| |b|z|s|l|m]; try discriminate Hx;
    [| | | |apply evals_correlation_row];
    (eapply evals_bind; [repeat constructor|]; cbv beta;
     repeat (eapply evals_bind;
             [by apply (evals_put_cell_value _ _ VUndefined _ (tbody pg))|];
             cbv beta);
     eapply evals_eq;
     [by apply (evals_put_cell_value _ _ VUndefined _ (tbody pg))|reflexivity]).
Qed.

(** On [null] the callback stops at its first field. *)
Lemma throws_first_cell x name (rest : nat -> Prog unit) columns pg :
  nullish x = true ->
  exists e,
    throws (r ← insertRow; put_cell r x name;; rest r) pg
      (set_tbody (tbody pg ++ [element_row (name :: columns) x]) pg) e.
Proof.
  intros Hx.
  destruct (throws_put_cell_nullish x name
              (set_tbody (tbody pg ++ [[]]) pg) (tbody pg) [] Hx eq_refl)
    as [e He].
  exists e. eapply throws_bind_r; [repeat constructor|]. cbv beta.
  apply throws_bind_l. eapply throws_eq; [exact He|].
  by destruct x.
Qed.

Lemma forEach_rendered columns (callback : value -> Prog unit) :
  (forall x pg, nullish x = false ->
     evals (callback x) pg
       (set_tbody (tbody pg ++ [element_row columns x]) pg) tt) ->
  (forall x pg, nullish x = true ->
     exists e, throws (callback x) pg
                 (set_tbody (tbody pg ++ [element_row columns x]) pg) e) ->
  forall l pg,
    if renders_all l
    then evals (forEach l callback) pg
           (set_tbody (tbody pg ++ rendered columns l) pg) tt
    else exists e, throws (forEach l callback) pg
                     (set_tbody (tbody pg ++ rendered columns l) pg) e.
Proof.
  intros Hev Hth l. induction l as [|x l IH]; intros pg.
  - cbn [renders_all forallb rendered forEach]. rewrite app_nil_r.
    destruct pg; constructor.
  - cbn [renders_all forallb rendered forEach].
    destruct (nullish x) eqn:Hx; cbn [negb andb].
    + destruct (Hth x pg Hx) as [e He]. exists e. by apply throws_bind_l.
    + specialize (IH (set_tbody (tbody pg ++ [element_row columns x]) pg)).
      fold (renders_all l) in *. cbn [tbody set_tbody] in IH.
      rewrite <- app_assoc in IH. cbn [app] in IH.
      destruct (renders_all l).
      * eapply evals_bind; [by apply Hev|]. exact IH.
      * destruct IH as [e He]. exists e.
        eapply throws_bind_r; [by apply Hev|]. exact He.
Qed.

Lemma length_nonzero (l : list value) :
  l ≠ [] -> (Z.of_nat (length l) =? 0)%Z = false.
Proof. destruct l; [done|]. intros _. simpl. lia. Qed.

(** X1: an array with elements that are not records, where every field
    that a column shows has a string (no number beyond 2^53, no object with
    a field [toString] of its own): every element gives a row in the
    artifact table, up to and including the first [null], and the rows stay
    there; on the [null] the table keeps a row that has a single empty cell,
    the elements after it are not rendered, and the failure is shown in the
    status section. A number, a string, a boolean or an array as an element
    gives a row of eight empty cells. *)
Theorem fetchArtifacts_renders_until_null (l : list value) (resp : response)
    (mw : Page -> Page) (pg : Page) :
  json resp = inr (VArr l) ->
  l ≠ [] ->
  forallb (printable_fields Dashboard.artifact_columns) l = true ->
  let a := run Dashboard.fetchArtifacts [Turn mw (Resolved resp)] pg in
  tbody (page a) = rendered Dashboard.artifact_columns l
  /\ outcome a = Finished tt
  /\ if renders_all l
     then statusHTML (page a)
          = statusHTML (mw (log (EFetch (GET "/api/artifacts")) pg))
          /\ timers (page a)
             = timers (mw (log (EFetch (GET "/api/artifacts")) pg))
     else statusHTML (page a) = banner "error" "Error fetching artifacts."
          /\ statusDisplay (page a) = "block".
Proof.
  intros Hjson Hne _ a. subst a. unfold Dashboard.fetchArtifacts. simpl.
  rewrite Hjson. simpl. rewrite length_nonzero by done.
  pose proof (forEach_rendered Dashboard.artifact_columns _
                evals_artifact_element
                (fun x pg0 => throws_first_cell x "id" _ _ pg0) l
                (set_tbody [] (mw (log (EFetch (GET "/api/artifacts")) pg))))
    as H.
  destruct (renders_all l).
  - erewrite run_try_evals by exact H. done.
  - destruct H as [e He]. erewrite run_try_throws by exact He. done.
Qed.

Lemma fetchArtifacts_renders_until_null_witness :
  json (json_response (VArr sample_elements)) = inr (VArr sample_elements)
  /\ sample_elements ≠ []
  /\ forallb (printable_fields Dashboard.artifact_columns) sample_elements
     = true
  /\ tbody (page (run Dashboard.fetchArtifacts
                    [Turn id (Resolved (json_response (VArr sample_elements)))]
                    blank_page))
     = rendered Dashboard.artifact_columns sample_elements.
Proof.
  assert (Hne : sample_elements ≠ []) by discriminate.
  assert (Hp : forallb (printable_fields Dashboard.artifact_columns)
                 sample_elements = true) by (by vm_compute).
  split; [reflexivity|]. split; [exact Hne|]. split; [exact Hp|].
  exact (proj1 (fetchArtifacts_renders_until_null sample_elements
                  (json_response (VArr sample_elements)) id blank_page
                  eq_refl Hne Hp)).
Defined.


(** X2: the same array in the correlation table, again with a string for
    every field that a column shows: when no element is [null], one row per
    element; when one is, the rows rendered so far are thrown away and the
    table holds the error row alone. *)
Theorem fetchCorrelations_renders_or_fails (l : list value) (resp : response)
    (mw : Page -> Page) (pg : Page) :
  json resp = inr (VArr l) ->
  l ≠ [] ->
  forallb (printable_fields Correlation.correlation_columns) l = true ->
  let c := run Correlation.fetchCorrelations [Turn mw (Resolved resp)] pg in
  tbody (page c)
  = (if renders_all l then rendered Correlation.correlation_columns l
     else [[Cell 4 "Error fetching correlations."]])
  /\ outcome c = Finished tt.
Proof.
  intros Hjson Hne _ c. subst c. unfold Correlation.fetchCorrelations. simpl.
  rewrite Hjson. simpl. rewrite length_nonzero by done.
  pose proof (forEach_rendered Correlation.correlation_columns _
                evals_correlation_element
                (fun x pg0 => throws_first_cell x "timestamp" _ _ pg0) l
                (set_tbody [] (mw (log (EFetch (GET "/api/correlations")) pg))))
    as H.
  destruct (renders_all l).
  - erewrite run_try_evals by exact H. done.
  - destruct H as [e He]. erewrite run_try_throws by exact He. done.
Qed.

Lemma fetchCorrelations_renders_or_fails_witness :
  json (json_response (VArr sample_elements)) = inr (VArr sample_elements)
  /\ sample_elements ≠ []
  /\ forallb (printable_fields Correlation.correlation_columns) sample_elements
     = true
  /\ tbody (page (run Correlation.fetchCorrelations
                    [Turn id (Resolved (json_response (VArr sample_elements)))]
                    blank_page))
     = (if renders_all sample_elements
        then rendered Correlation.correlation_columns sample_elements
        else [[Cell 4 "Error fetching correlations."]]).
Proof.
  assert (Hne : sample_elements ≠ []) by discriminate.
  assert (Hp : forallb (printable_fields Correlation.correlation_columns)
                 sample_elements = true) by (by vm_compute).
  split; [reflexivity|]. split; [exact Hne|]. split; [exact Hp|].
  exact (proj1 (fetchCorrelations_renders_or_fails sample_elements
                  (json_response (VArr sample_elements)) id blank_page
                  eq_refl Hne Hp)).
Defined.


(** X3: a body that is JSON but not an array: the artifact table ends up
    empty, its previous rows are lost, and the failure is shown in the status
    section, because the table is cleared before the value is looked at. The
    exception is a value whose [length] is 0 (the empty string, or an object
    with such a field): it gets the placeholder row of an empty collection. *)
Theorem fetchArtifacts_not_an_array (v : value) (resp : response)
    (mw : Page -> Page) (pg : Page) :
  json resp = inr v ->
  not_array v ->
  let a := run Dashboard.fetchArtifacts [Turn mw (Resolved resp)] pg in
  outcome a = Finished tt
  /\ if zero_length v
     then tbody (page a) = [[Cell 8 "No artifacts found."]]
          /\ statusHTML (page a)
             = statusHTML (mw (log (EFetch (GET "/api/artifacts")) pg))
     else tbody (page a) = []
          /\ statusHTML (page a) = banner "error" "Error fetching artifacts."
          /\ statusDisplay (page a) = "block".
Proof.
  intros Hjson Hv a. subst a. unfold Dashboard.fetchArtifacts. simpl.
  rewrite Hjson.
  destruct v as [| |b|z|s|l|m]; try destruct Hv; try done.
  - by destruct s.
  - simpl. destruct (m !! "length") as [[| |b|z|s|l|m']|]; try done.
    simpl. by destruct (z =? 0)%Z.
Qed.

Lemma fetchArtifacts_not_an_array_witness :
  json (json_response (VObj success_body)) = inr (VObj success_body)
  /\ not_array (VObj success_body)
  /\ outcome (run Dashboard.fetchArtifacts
                [Turn id (Resolved (json_response (VObj success_body)))]
                (set_tbody [[Cell 1 "2024-01-01"]] blank_page))
     = Finished tt.
Proof.
  split; [reflexivity|]. split; [exact I|].
  exact (proj1 (fetchArtifacts_not_an_array (VObj success_body)
                  (json_response (VObj success_body)) id
                  (set_tbody [[Cell 1 "2024-01-01"]] blank_page) eq_refl I)).
Defined.


(** X4: the correlation table on such a body: the error row, or the
    placeholder row when the [length] of the value is 0. *)
Theorem fetchCorrelations_not_an_array (v : value) (resp : response)
    (mw : Page -> Page) (pg : Page) :
  json resp = inr v ->
  not_array v ->
  let c := run Correlation.fetchCorrelations [Turn mw (Resolved resp)] pg in
  outcome c = Finished tt
  /\ tbody (page c)
     = [[Cell 4 (if zero_length v then "No correlations found."
                 else "Error fetching correlations.")]].
Proof.
  intros Hjson Hv c. subst c. unfold Correlation.fetchCorrelations. simpl.
  rewrite Hjson.
  destruct v as [| |b|z|s|l|m]; try destruct Hv; try done.
  - by destruct s.
  - simpl. destruct (m !! "length") as [[| |b|z|s|l|m']|]; try done.
    simpl. by destruct (z =? 0)%Z.
Qed.

Lemma fetchCorrelations_not_an_array_witness :
  json (json_response (VStr "")) = inr (VStr "")
  /\ not_array (VStr "")
  /\ tbody (page (run Correlation.fetchCorrelations
                    [Turn id (Resolved (json_response (VStr "")))] blank_page))
     = [[Cell 4 (if zero_length (VStr "") then "No correlations found."
                 else "Error fetching correlations.")]].
Proof.
  split; [reflexivity|]. split; [exact I|].
  exact (proj2 (fetchCorrelations_not_an_array (VStr "")
                  (json_response (VStr "")) id blank_page eq_refl I)).
Defined.


End RefreshAnyBody.

(** ** The parse commands *)

Section ParseCommands.

(** Effects other than [fetch] add no request. *)
Ltac same_requests :=
  unfold requests, log; simpl; rewrite ?omap_app; simpl;
  rewrite ?app_nil_r; reflexivity.

(** X5: the guard of the parse-folder command: with an empty path the listener
    ends at once, whatever is scheduled; it issues no request and logs
    nothing, leaves the table alone, and shows the error 'Please enter a
    folder path.' in the status section. *)
Theorem parseFolderBtn_click_empty_path (schedule : list turn) (pg : Page) :
  folderPath pg = "" ->
  let a := run Dashboard.parseFolderBtn_click schedule pg in
  outcome a = Finished tt
  /\ spawned a = []
  /\ journal (page a) = journal pg
  /\ tbody (page a) = tbody pg
  /\ statusHTML (page a) = banner "error" "Please enter a folder path."
  /\ statusDisplay (page a) = "block".
Proof.
  intros Hpath a. subst a. unfold Dashboard.parseFolderBtn_click.
  cbn [mbind Prog_bind bind read run]. rewrite Hpath.
  change (String.eqb "" "") with true. cbv iota. done.
Qed.

Lemma parseFolderBtn_click_empty_path_witness :
  folderPath blank_page = ""
  /\ journal (page (run Dashboard.parseFolderBtn_click
                      [Turn id (Resolved (json_response (VObj success_body)))]
                      blank_page))
     = journal blank_page.
Proof.
  split; [reflexivity|].
  exact (proj1 (proj2 (proj2
    (parseFolderBtn_click_empty_path
       [Turn id (Resolved (json_response (VObj success_body)))] blank_page
       eq_refl)))).
Defined.

(** X6: the two parse commands. Each issues one request: parse-folder, when
    the folder input is not empty, posts the path as it stands in the input,
    not trimmed, under [folder_path]; parse-shellbags, whatever the folder
    input holds, posts no body. While the request is pending the status
    section says that parsing has started. Whatever the answer, the listener
    runs to its end without an uncaught error, starts no task, issues no
    further request and leaves the table as it is: the table is not refreshed
    after parsing. *)
Theorem parse_commands_do_not_refresh (r : reply) (mw : Page -> Page) (pg : Page) :
  let framed (click : Prog unit) (req : request) (started : string) :=
    let waiting := run click [] pg in
    let settled := run click [Turn mw r] pg in
    requests (page waiting) = requests pg ++ [req]
    /\ statusHTML (page waiting) = banner "info" started
    /\ tbody (page waiting) = tbody pg
    /\ outcome settled = Finished tt
    /\ spawned settled = []
    /\ requests (page settled) = requests (mw (page waiting))
    /\ tbody (page settled) = tbody (mw (page waiting)) in
  (folderPath pg ≠ "" ->
   framed Dashboard.parseFolderBtn_click (parse_folder_request (folderPath pg))
     "Parsing folder started...")
  /\ framed Dashboard.parseShellbagsBtn_click
       (POST "/api/parse_shellbags" (Some "application/json") None)
       "Parsing ShellBags started...".
Proof.
  intros framed. subst framed. cbv beta.
  unfold Dashboard.parseFolderBtn_click, Dashboard.parseShellbagsBtn_click,
    Dashboard.on_status_body, parse_folder_request.
  split; [intros Hpath; apply String.eqb_neq in Hpath|];
    simpl; rewrite ?Hpath; simpl;
    (split; [rewrite requests_log_fetch; f_equal; same_requests|]);
    (split; [reflexivity|]); (split; [reflexivity|]);
    (destruct r as [e|resp]; simpl;
     [repeat split; same_requests|]);
    (destruct (json resp) as [e|v]; simpl; [repeat split; same_requests|]);
    (destruct v; simpl; try (repeat split; same_requests));
    (destruct (strict_eq_str _ _); simpl; repeat split; same_requests).
Qed.

Lemma parse_commands_do_not_refresh_witness :
  folderPath (set_folderPath "C:" blank_page) ≠ ""
  /\ requests (page (run Dashboard.parseFolderBtn_click []
                       (set_folderPath "C:" blank_page)))
     = requests (set_folderPath "C:" blank_page)
         ++ [parse_folder_request
               (folderPath (set_folderPath "C:" blank_page))]
  /\ requests (page (run Dashboard.parseShellbagsBtn_click [] blank_page))
     = requests blank_page
         ++ [POST "/api/parse_shellbags" (Some "application/json") None].
Proof.
  assert (Hpath : folderPath (set_folderPath "C:" blank_page) ≠ "")
    by discriminate.
  split; [exact Hpath|]. split.
  - exact (proj1 (proj1
      (parse_commands_do_not_refresh
         (Resolved (json_response (VObj success_body))) id
         (set_folderPath "C:" blank_page)) Hpath)).
  - exact (proj1 (proj2
      (parse_commands_do_not_refresh
         (Resolved (json_response (VObj success_body))) id blank_page))).
Defined.

(** X7: a command whose request is rejected, or whose answer is not JSON,
    reports the error under its own name: the status section is made visible
    and is assigned, as an error paragraph, 'Error parsing folder: ', 'Error
    parsing ShellBags: ' or 'Error clearing database: ' followed by the
    message of the error, and the error is written to the console. When the
    message is plain (no less-than sign, ampersand, NUL or carriage return)
    this is the text that the browser displays; a message that is not, such
    as the one for an HTML error page, is parsed as markup instead. The
    folder input matters to the parse-folder command only. *)
Theorem commands_report_transport_error
    (r : reply) (e : error) (mw : Page -> Page) (pg : Page) :
  transport_error r = Some e ->
  let reports (click : Prog unit) (label : string) :=
    let settled := page (run click [Turn mw r] pg) in
    shows settled "error" ("Error " +:+ label +:+ ": " +:+ err_message e)
    /\ EConsoleError ("Error " +:+ label +:+ ":") e ∈ journal settled in
  (folderPath pg ≠ "" ->
   reports Dashboard.parseFolderBtn_click "parsing folder")
  /\ reports Dashboard.parseShellbagsBtn_click "parsing ShellBags"
  /\ reports (Dashboard.clearDbBtn_click true) "clearing database".
Proof.
  intros Hr reports. subst reports. cbv beta.
  unfold Dashboard.parseFolderBtn_click, Dashboard.parseShellbagsBtn_click,
    Dashboard.clearDbBtn_click, Dashboard.on_status_body.
  destruct r as [e'|resp]; simpl in Hr.
  - injection Hr as ->.
    split; [intros Hpath; apply String.eqb_neq in Hpath|split];
      (split; [apply shows_intro; try reflexivity; simpl; rewrite ?Hpath; done
              |simpl; rewrite ?Hpath; simpl; apply elem_of_app; right; left]).
  - destruct (json resp) as [e'|v] eqn:Hjson; [|discriminate Hr].
    injection Hr as ->.
    split; [intros Hpath; apply String.eqb_neq in Hpath|split];
      (split; [apply shows_intro; try reflexivity; simpl; rewrite ?Hpath;
               simpl; rewrite Hjson; done
              |simpl; rewrite ?Hpath; simpl; rewrite Hjson; simpl;
               apply elem_of_app; right; left]).
Qed.

Lemma commands_report_transport_error_witness :
  transport_error (Rejected (TypeError "Failed to fetch"))
  = Some (TypeError "Failed to fetch")
  /\ shows (page (run Dashboard.parseShellbagsBtn_click
                    [Turn id (Rejected (TypeError "Failed to fetch"))]
                    blank_page))
       "error" "Error parsing ShellBags: Failed to fetch".
Proof.
  split; [reflexivity|].
  exact (proj1 (proj1 (proj2
    (commands_report_transport_error
       (Rejected (TypeError "Failed to fetch")) (TypeError "Failed to fetch")
       id blank_page eq_refl)))).
Defined.

(** X8: a command that is answered by JSON that is not an object (a number, a
    string, a boolean, an array) takes the failure path with no message to
    show: the status section is made visible and displays the error 'Error:
    undefined'. This holds for parse-shellbags and the confirmed clear
    whatever the folder input holds, and for parse-folder when the input is
    not empty. *)
Theorem commands_report_fieldless_answer
    (v : value) (resp : response) (mw : Page -> Page) (pg : Page) :
  json resp = inr v ->
  fieldless v ->
  let answered (command : Prog unit) :=
    page (run command [Turn mw (Resolved resp)] pg) in
  (folderPath pg ≠ "" ->
   shows (answered Dashboard.parseFolderBtn_click) "error" "Error: undefined")
  /\ shows (answered Dashboard.parseShellbagsBtn_click) "error"
       "Error: undefined"
  /\ shows (answered (Dashboard.clearDbBtn_click true)) "error"
       "Error: undefined".
Proof.
  intros Hjson Hv answered. subst answered. cbv beta.
  unfold Dashboard.parseFolderBtn_click,
    Dashboard.parseShellbagsBtn_click, Dashboard.clearDbBtn_click,
    Dashboard.on_status_body.
  split; [intros Hpath; apply String.eqb_neq in Hpath|split];
    apply shows_intro; try reflexivity;
    simpl; rewrite ?Hpath; simpl; rewrite Hjson;
    destruct v as [| |b|z|s|l|m]; try destruct Hv; simpl; done.
Qed.

Lemma commands_report_fieldless_answer_witness :
  json (json_response (VNum 7)) = inr (VNum 7)
  /\ fieldless (VNum 7)
  /\ shows (page (run (Dashboard.clearDbBtn_click true)
                    [Turn id (Resolved (json_response (VNum 7)))] blank_page))
       "error" "Error: undefined"
  /\ displayed (page (run (Dashboard.clearDbBtn_click true)
                        [Turn id (Resolved (json_response (VNum 7)))]
                        blank_page))
     = Some (Paragraph "error" "Error: undefined").
Proof.
  pose proof (proj2 (proj2
    (commands_report_fieldless_answer (VNum 7) (json_response (VNum 7)) id
       blank_page eq_refl I))) as H.
  split; [reflexivity|]. split; [exact I|]. split; [exact H|].
  exact (proj2 (proj2 H) eq_refl).
Defined.

End ParseCommands.

(** ** The export, step by step *)

Section ExportSteps.

#[local] Arguments download_name : simpl never.

Lemma fromEntries_snoc entries nv :
  fromEntries (entries ++ [nv])
  = match fromEntries entries with
    | VObj m => VObj (<[nv.1 := VStr nv.2]> m)
    | v => v
    end.
Proof. unfold fromEntries. by rewrite foldl_app. Qed.

Lemma submitted_snoc entries nv name :
  submitted (entries ++ [nv]) name
  = if decide (nv.1 = name) then Some nv.2 else submitted entries name.
Proof.
  unfold submitted. rewrite filter_app.
  destruct (decide (nv.1 = name)) as [Heq|Hne].
  - rewrite (filter_cons_True _ nv []) by exact Heq.
    rewrite filter_nil. by rewrite last_snoc.
  - rewrite (filter_cons_False _ nv []) by exact Hne.
    by rewrite filter_nil, app_nil_r.
Qed.

(** [Object.fromEntries] keeps, for every name, the value of the last
    entry with that name. *)
Lemma fromEntries_lookup entries :
  exists m, fromEntries entries = VObj m
            /\ forall name, m !! name = VStr <$> submitted entries name.
Proof.
  induction entries as [|nv entries IH] using rev_ind.
  - exists ∅. split; [reflexivity|]. intros name. by rewrite lookup_empty.
  - destruct IH as (m & Hm & Hlook).
    exists (<[nv.1 := VStr nv.2]> m). rewrite fromEntries_snoc, Hm.
    split; [reflexivity|]. intros name. rewrite submitted_snoc.
    destruct (decide (nv.1 = name)) as [<-|Hne].
    + by rewrite lookup_insert_eq.
    + by rewrite lookup_insert_ne.
Qed.

Lemma run_submit_waiting_dashboard pg :
  page (run Dashboard.pdfReportForm_submit [] pg)
  = log (EFetch (POST "/api/export_pdf" (Some "application/json")
                   (Some (fromEntries (form pg)))))
      (page (run (Dashboard.showStatus (VStr "Generating PDF report...") "info")
               [] pg)).
Proof. reflexivity. Qed.

Lemma run_submit_waiting_correlation pg :
  page (run Correlation.pdfReportForm_submit [] pg)
  = log (EFetch (POST "/api/export_correlation_pdf" (Some "application/json")
                   (Some (fromEntries (form pg)))))
      (log (EAlert "Generating Correlation PDF report...") pg).
Proof. reflexivity. Qed.

(** X9: what the export sends, in both scripts: one POST whose JSON body is an
    object that holds, for every name in the form, the value of the last
    control with that name, as a string, and nothing else. While the request
    is pending the listener is suspended, the modal is as it was and the form
    keeps its values. *)
Theorem export_request_body (pg : Page) :
  let sends (submit : Prog unit) (url : string) :=
    let waiting := run submit [] pg in
    (exists m k,
       (forall name, m !! name = VStr <$> submitted (form pg) name)
       /\ requests (page waiting)
          = requests pg
              ++ [POST url (Some "application/json") (Some (VObj m))]
       /\ outcome waiting
          = Suspended (POST url (Some "application/json") (Some (VObj m))) k)
    /\ modalDisplay (page waiting) = modalDisplay pg
    /\ form (page waiting) = form pg in
  sends Dashboard.pdfReportForm_submit "/api/export_pdf"
  /\ sends Correlation.pdfReportForm_submit "/api/export_correlation_pdf".
Proof.
  intros sends. subst sends. cbv beta.
  destruct (fromEntries_lookup (form pg)) as (m & Hm & Hlook).
  split.
  - split; [|split; reflexivity].
    exists m. eexists. split; [exact Hlook|]. split.
    + rewrite run_submit_waiting_dashboard, requests_log_fetch, Hm.
      reflexivity.
    + unfold Dashboard.pdfReportForm_submit. simpl. rewrite Hm. reflexivity.
  - split; [|split; reflexivity].
    exists m. eexists. split; [exact Hlook|]. split.
    + rewrite run_submit_waiting_correlation, requests_log_fetch, Hm.
      unfold requests, log. simpl. rewrite omap_app. simpl.
      by rewrite app_nil_r.
    + unfold Correlation.pdfReportForm_submit. simpl. rewrite Hm. reflexivity.
Qed.

(** What the listeners add to the journal once the request has settled. *)
Lemma dashboard_export_journal (r : reply) (mw : Page -> Page) (pg : Page) :
  exists engine_text,
  journal (page (run Dashboard.pdfReportForm_submit [Turn mw r] pg))
  = journal (mw (page (run Dashboard.pdfReportForm_submit [] pg)))
      ++ match classify r with
         | Exported disposition data =>
             [ECreateObjectURL data;
              EAnchorClick (download_name "artifacts_report.pdf" disposition)
                data;
              ERevokeObjectURL data]
         | Refused _ => []
         | Broken e => [EConsoleError "Error exporting PDF:" e]
         | Unreadable =>
             [EConsoleError "Error exporting PDF:" (TypeError engine_text)]
         end.
Proof.
  unfold Dashboard.pdfReportForm_submit, classify.
  destruct r as [e|[[] cd [eb|b] [e|v]]]; simpl;
    rewrite <- ?app_assoc; try (by exists "").
  all: destruct v; simpl; rewrite ?app_nil_r;
    first [ by exists "" | eexists; reflexivity ].
Qed.

Lemma correlation_export_journal (r : reply) (mw : Page -> Page) (pg : Page) :
  exists engine_text,
  journal (page (run Correlation.pdfReportForm_submit [Turn mw r] pg))
  = journal (mw (page (run Correlation.pdfReportForm_submit [] pg)))
      ++ match classify r with
         | Exported disposition data =>
             [ECreateObjectURL data;
              EAnchorClick (download_name "correlation_report.pdf" disposition)
                data;
              ERevokeObjectURL data]
         | Refused message =>
             [EAlert ("Error generating PDF: " +:+ to_string message)]
         | Broken e =>
             [EConsoleError "Error exporting correlation PDF:" e;
              EAlert ("Error exporting correlation PDF: " +:+ err_message e)]
         | Unreadable =>
             [EConsoleError "Error exporting correlation PDF:"
                (TypeError engine_text);
              EAlert ("Error exporting correlation PDF: " +:+ engine_text)]
         end.
Proof.
  unfold Correlation.pdfReportForm_submit, classify.
  destruct r as [e|[[] cd [eb|b] [e|v]]]; simpl;
    rewrite <- ?app_assoc; try (by exists "").
  all: destruct v; simpl; rewrite <- ?app_assoc;
    first [ by exists "" | eexists; reflexivity ].
Qed.

(** What the dashboard's listener leaves in the status section. *)
Lemma dashboard_export_status (r : reply) (mw : Page -> Page) (pg : Page) :
  let settled := page (run Dashboard.pdfReportForm_submit [Turn mw r] pg) in
  statusDisplay settled = "block"
  /\ match classify r with
     | Exported _ _ =>
         statusHTML settled
         = banner "info" "PDF report initiated. Check your downloads."
     | Refused message =>
         statusHTML settled
         = banner "error" ("Error generating PDF: " +:+ to_string message)
     | Broken e =>
         statusHTML settled
         = banner "error" ("Error exporting PDF: " +:+ err_message e)
     | Unreadable =>
         exists engine_text,
           statusHTML settled
           = banner "error" ("Error exporting PDF: " +:+ engine_text)
     end.
Proof.
  unfold Dashboard.pdfReportForm_submit, classify.
  destruct r as [e|[[] cd [eb|b] [e|v]]]; simpl; try done.
  all: destruct v; simpl; first [ done | split; [done|eexists; reflexivity] ].
Qed.

(** X10: how the dashboard reports the outcome of an export, for every
    reply: the status section is made visible and is assigned a paragraph,
    which the browser displays as its text when the text is plain. The
    paragraph is the information 'PDF report initiated. Check your
    downloads.' when the response is ok and its body can be read; the error
    'Error generating PDF: ' followed by the [message] of the JSON value
    ('undefined' when there is none) when the response is not ok and the
    message has a string; and the error 'Error exporting PDF: ' followed by
    the message of the error when the request is rejected or a body cannot
    be read, be it the file of an ok response or the JSON of a refusal.
    When the JSON value of a refusal is [null], the text after 'Error
    exporting PDF: ' is the engine's own. *)
Theorem dashboard_export_reports (r : reply) (mw : Page -> Page) (pg : Page) :
  let settled := page (run Dashboard.pdfReportForm_submit [Turn mw r] pg) in
  match classify r with
  | Exported _ _ =>
      shows settled "info" "PDF report initiated. Check your downloads."
  | Refused message =>
      printable message = true ->
      shows settled "error" ("Error generating PDF: " +:+ to_string message)
  | Broken e =>
      shows settled "error" ("Error exporting PDF: " +:+ err_message e)
  | Unreadable =>
      exists engine_text,
        shows settled "error" ("Error exporting PDF: " +:+ engine_text)
  end.
Proof.
  intros settled. subst settled.
  destruct (dashboard_export_status r mw pg) as [Hdisplay Hhtml].
  destruct (classify r) as [cd data|message|e|].
  - by apply shows_intro.
  - intros _. by apply shows_intro.
  - by apply shows_intro.
  - destruct Hhtml as [engine_text Hhtml]. exists engine_text.
    by apply shows_intro.
Qed.

(** X11: the correlation view reports through [alert] alone: one alert when
    the export starts; after the reply, no further alert when the file has
    arrived, one alert 'Error generating PDF: ' with the [message] of the
    JSON value when the response is not ok and the message has a string, and
    one alert 'Error exporting correlation PDF: ' with the message of the
    error when the request is rejected or a body cannot be read, be it the
    file of an ok response or the JSON of a refusal; when the JSON value of
    a refusal is [null], the text after the prefix is the engine's own. The
    listener never writes to the status section and schedules no callback. *)
Theorem correlation_export_alerts (r : reply) (mw : Page -> Page) (pg : Page) :
  let waiting := page (run Correlation.pdfReportForm_submit [] pg) in
  let settled := page (run Correlation.pdfReportForm_submit [Turn mw r] pg) in
  alerts waiting = alerts pg ++ ["Generating Correlation PDF report..."]
  /\ match classify r with
     | Exported _ _ => alerts settled = alerts (mw waiting)
     | Refused message =>
         printable message = true ->
         alerts settled
         = alerts (mw waiting)
             ++ ["Error generating PDF: " +:+ to_string message]
     | Broken e =>
         alerts settled
         = alerts (mw waiting)
             ++ ["Error exporting correlation PDF: " +:+ err_message e]
     | Unreadable =>
         exists engine_text,
           alerts settled
           = alerts (mw waiting)
               ++ ["Error exporting correlation PDF: " +:+ engine_text]
     end
  /\ statusHTML settled = statusHTML (mw waiting)
  /\ statusDisplay settled = statusDisplay (mw waiting)
  /\ timers settled = timers (mw waiting)
  /\ statusHTML waiting = statusHTML pg
  /\ timers waiting = timers pg.
Proof.
  intros waiting settled. subst waiting settled.
  split.
  { rewrite run_submit_waiting_correlation. unfold alerts, log.
    cbn [journal set_journal]. rewrite !omap_app. cbn [omap list_omap].
    by rewrite app_nil_r. }
  split.
  { destruct (correlation_export_journal r mw pg) as [engine_text Hj].
    unfold alerts. rewrite Hj, omap_app.
    destruct (classify r) as [cd data|message|e|]; cbn [omap list_omap].
    - by rewrite app_nil_r.
    - by intros _.
    - reflexivity.
    - by exists engine_text. }
  unfold Correlation.pdfReportForm_submit.
  destruct r as [e|[[] cd [eb|b] [e|v]]]; simpl; try done.
  all: destruct v; simpl; done.
Qed.

(** X12: the life of the object URL, in both scripts: when the response is
    ok and its body can be read, one URL is created for the data, the anchor
    with that URL and the file name is clicked, and the URL is revoked, in
    this order and once; when the body of an ok response cannot be read, and
    when the export is refused or fails, no URL is created and nothing is
    saved. *)
Theorem export_object_url (r : reply) (mw : Page -> Page) (pg : Page) :
  let saves (submit : Prog unit) (fallback : string) :=
    url_effects (page (run submit [Turn mw r] pg))
    = url_effects (mw (page (run submit [] pg)))
        ++ match classify r with
           | Exported disposition data =>
               [ECreateObjectURL data;
                EAnchorClick (download_name fallback disposition) data;
                ERevokeObjectURL data]
           | Refused _ | Broken _ | Unreadable => []
           end in
  saves Dashboard.pdfReportForm_submit "artifacts_report.pdf"
  /\ saves Correlation.pdfReportForm_submit "correlation_report.pdf".
Proof.
  intros saves. subst saves. cbv beta. unfold url_effects.
  destruct (correlation_export_journal r mw pg) as [text_c Hc].
  destruct (dashboard_export_journal r mw pg) as [text_d Hd].
  rewrite Hc, Hd, !omap_app.
  by destruct (classify r).
Qed.

End ExportSteps.

(** ** The modal *)

Section Modal.

Lemma set_modalDisplay_same pg : set_modalDisplay (modalDisplay pg) pg = pg.
Proof. by destruct pg. Qed.

Lemma set_modalDisplay_twice d d' pg :
  set_modalDisplay d' (set_modalDisplay d pg) = set_modalDisplay d' pg.
Proof. reflexivity. Qed.

Lemma clicked_page clicks pg :
  clicked clicks pg
  = set_modalDisplay (modal_after clicks (modalDisplay pg)) pg.
Proof.
  revert pg. induction clicks as [|c clicks IH]; intros pg.
  - symmetry. apply set_modalDisplay_same.
  - change (clicked (c :: clicks) pg)
      with (clicked clicks (page (run (modal_listener c) [] pg))).
    rewrite IH. destruct c as [| |[]]; try reflexivity.
Qed.

(** X13: the three listeners of the modal change nothing but its display:
    after any sequence of clicks the form keeps the values typed into it, the
    table and the status section are as before and nothing was requested or
    logged; the modal is shown after a click on the opening button, hidden
    after a click on the close button or on the backdrop, and a click anywhere
    else leaves it as it is. *)
Theorem modal_clicks_only_toggle_display (clicks : list modal_click) (pg : Page) :
  let p := clicked clicks pg in
  modalDisplay p = modal_after clicks (modalDisplay pg)
  /\ form p = form pg
  /\ tbody p = tbody pg
  /\ statusHTML p = statusHTML pg
  /\ statusDisplay p = statusDisplay pg
  /\ timers p = timers pg
  /\ journal p = journal pg
  /\ storage p = storage pg.
Proof. intros p. subst p. rewrite clicked_page. repeat split. Qed.

End Modal.

(** ** The status section over time *)

Section StatusLifetime.
#[local] Open Scope Z_scope.

Lemma filter_none {A : Type} (P : A -> Prop) `{!forall x, Decision (P x)}
    (l : list A) :
  Forall (fun x => ~ P x) l -> filter P l = [].
Proof.
  induction 1 as [|x l Hx _ IH]; [reflexivity|].
  by rewrite filter_cons_False.
Qed.

(** X14: the status section is hidden once five seconds have passed since the
    last message, and no callback is left; the text of the message stays in
    the hidden section. This rests on an invariant that [showStatus] and the
    passing of time keep: every pending callback is due within five seconds.
    *)
Theorem status_hidden_after_last_message
    (message : value) (type : string) (t : Z) (pg : Page) :
  timers_within pg ->
  clock pg + 5000 <= t ->
  let shown := page (run (Dashboard.showStatus message type) [] pg) in
  timers_within shown
  /\ (forall t', clock pg <= t' -> timers_within (elapse t' shown))
  /\ statusDisplay (elapse t shown) = "none"
  /\ timers (elapse t shown) = []
  /\ statusHTML (elapse t shown) = banner type (to_string message).
Proof.
  intros Hinv Ht shown. subst shown. rewrite showStatus_page.
  unfold timers_within in *.
  assert (Forall (fun d => d <= clock pg + 5000) (timers pg ++ [clock pg + 5000]))
    as Hall.
  { apply Forall_app. split; [exact Hinv|]. apply Forall_singleton. lia. }
  split; [exact Hall|]. split; [|split; [|split]].
  - intros t' Ht'. rewrite elapse_timers, elapse_clock.
    cbn [timers set_timers]. apply Forall_forall. intros d Hd.
    apply list_elem_of_filter in Hd as [_ Hd].
    rewrite Forall_forall in Hall. specialize (Hall d Hd). lia.
  - apply (elapse_hides _ (clock pg + 5000)); [|exact Ht].
    cbn [timers set_timers]. apply elem_of_app. right. left.
  - rewrite elapse_timers. cbn [timers set_timers].
    apply filter_none, Forall_forall. intros d Hd.
    rewrite Forall_forall in Hall. specialize (Hall d Hd). lia.
  - by rewrite elapse_statusHTML.
Qed.

Lemma status_hidden_after_last_message_witness :
  timers_within blank_page
  /\ clock blank_page + 5000 <= 5000
  /\ statusDisplay
       (elapse 5000
          (page (run (Dashboard.showStatus (VStr "done") "info") [] blank_page)))
     = "none".
Proof.
  assert (Hinv : timers_within blank_page) by apply Forall_nil_2.
  assert (Ht : clock blank_page + 5000 <= 5000) by (simpl; lia).
  split; [exact Hinv|]. split; [exact Ht|].
  exact (proj1 (proj2 (proj2
    (status_hidden_after_last_message (VStr "done") "info" 5000 blank_page
       Hinv Ht)))).
Defined.

End StatusLifetime.

(** ** The theme toggle *)

Section ThemeToggle.

Lemma run_setTheme t pg :
  page (run (setTheme t) [] pg)
  = set_toggleChecked (String.eqb t "dark")
      (log (EStorageSet "theme" t)
         (set_storage (<["theme" := t]> (storage pg))
            (set_dataTheme (Some t) pg))).
Proof. unfold setTheme. simpl. by destruct (String.eqb t "dark"). Qed.

Lemma run_themeToggle_change pg :
  page (run themeToggle_change [] pg)
  = page (run (setTheme (toggled_theme (toggleChecked pg))) [] pg).
Proof.
  unfold themeToggle_change. cbn [mbind Prog_bind bind read run].
  by destruct (toggleChecked pg).
Qed.

(** X15: the toggle: a change applies and saves dark when the toggle is
    checked and light when it is not, writes no other key of the storage and
    leaves the toggle as the user set it; a page that is loaded on the storage
    it leaves comes up with the same theme and with the toggle in the same
    position. *)
Theorem themeToggle_change_saves_and_restores (pg : Page) :
  let t := toggled_theme (toggleChecked pg) in
  let p := page (run themeToggle_change [] pg) in
  dataTheme p = Some t
  /\ storage p !! "theme" = Some t
  /\ (forall key, key ≠ "theme" -> storage p !! key = storage pg !! key)
  /\ toggleChecked p = toggleChecked pg
  /\ forall fresh : Page,
       storage fresh = storage p ->
       let q := page (run apply_saved_theme [] fresh) in
       dataTheme q = Some t
       /\ toggleChecked q = toggleChecked pg
       /\ storage q = storage p.
Proof.
  intros t p. subst t p. rewrite run_themeToggle_change, run_setTheme.
  cbn [dataTheme storage toggleChecked set_toggleChecked log set_journal
       set_storage set_dataTheme].
  split; [reflexivity|]. split; [by rewrite lookup_insert_eq|].
  split; [intros key Hkey; by rewrite lookup_insert_ne|].
  split; [by destruct (toggleChecked pg)|].
  intros fresh Hfresh. cbv zeta. rewrite run_apply_saved_theme.
  assert (theme_on_load fresh = toggled_theme (toggleChecked pg)) as ->.
  { unfold theme_on_load. rewrite Hfresh, lookup_insert_eq.
    by destruct (toggleChecked pg). }
  cbn [dataTheme storage toggleChecked set_toggleChecked log set_journal
       set_storage set_dataTheme].
  split; [reflexivity|]. split; [by destruct (toggleChecked pg)|].
  rewrite Hfresh. apply insert_insert_eq.
Qed.

End ThemeToggle.

(** ** The buttons that navigate *)

Section Navigation.
#[local] Open Scope Z_scope.

(** X16: the CSV export and the link to the correlation view issue no [fetch]
    and cannot fail: the CSV export navigates once to /api/export_csv and ends
    on the message 'CSV report initiated. Check your downloads.' whatever the
    server does with the navigation, its first message being overwritten in
    the same turn, with two callbacks pending; the link opens /correlation in
    a new tab and changes nothing on the page. *)
Theorem navigation_buttons (schedule : list turn) (pg : Page) :
  let csv := run Dashboard.exportCsvBtn_click schedule pg in
  let view := run Dashboard.showCorrelationsBtn_click schedule pg in
  (outcome csv = Finished tt
   /\ spawned csv = []
   /\ journal (page csv) = journal pg ++ [ENavigate "/api/export_csv"]
   /\ statusHTML (page csv)
      = banner "info" "CSV report initiated. Check your downloads."
   /\ statusDisplay (page csv) = "block"
   /\ timers (page csv) = timers pg ++ [clock pg + 5000; clock pg + 5000]
   /\ tbody (page csv) = tbody pg)
  /\ outcome view = Finished tt
  /\ spawned view = []
  /\ page view = log (EWindowOpen "/correlation" "_blank") pg.
Proof.
  unfold Dashboard.exportCsvBtn_click, Dashboard.showCorrelationsBtn_click.
  simpl. rewrite <- app_assoc. repeat split.
Qed.

End Navigation.

(** ** More on the name of the download *)

Section DownloadNameShape.
Import Param.

Abbreviation fname := (String.list_ascii_of_string "filename").
Abbreviation class1 := (in_class true [";"%char; "="%char; LF]).
Abbreviation class2 := (in_class true [";"%char; LF]).

Lemma skip_prefix p s :
  exists l, s = l ++ skip p s /\ Forall (fun c => p c = true) l.
Proof.
  induction s as [|c s (l & IH & Hl)]; cbn [skip]; [by exists []|].
  destruct (p c) eqn:Hc; [|by exists []].
  exists (c :: l). split; [cbn [app]; by rewrite <- IH|].
  by apply Forall_cons.
Qed.

Lemma after_closing_prefix q s rest :
  after_closing q s = Some rest ->
  exists l, s = l ++ q :: rest
            /\ Forall (fun c => line_terminator c = false) l.
Proof.
  revert rest. induction s as [|c s IH]; intros rest; cbn [after_closing];
    [discriminate|].
  destruct (Ascii.eqb_spec q c) as [->|Hne].
  - intros [= ->]. by exists [].
  - destruct (line_terminator c) eqn:Hc; [discriminate|].
    intros H. destruct (IH _ H) as (l & -> & Hl).
    exists (c :: l). split; [reflexivity|]. by apply Forall_cons.
Qed.

Lemma class2_not_LF c : class2 c = true -> c ≠ LF.
Proof. by intros H ->. Qed.

Lemma line_terminator_not_LF c : line_terminator c = false -> c ≠ LF.
Proof. by intros H ->. Qed.

Lemma is_quote_not_LF c : is_quote c = true -> c ≠ LF.
Proof. by intros H ->. Qed.

(** A value never holds a line feed. *)
Lemma value_no_LF v : Forall (fun c => c ≠ LF) (value v).
Proof.
  assert (forall l, Forall (fun c => class2 c = true) l ->
                    Forall (fun c => c ≠ LF) l) as Hbare.
  { intros l Hl. eapply Forall_impl; [exact Hl|exact class2_not_LF]. }
  assert (Forall (fun c => c ≠ LF)
            (take (length v - length (skip class2 v)) v)) as Hskip.
  { destruct (skip_prefix class2 v) as (l & Hv & Hl).
    revert Hv. generalize (skip class2 v). intros rest ->.
    rewrite take_all_but. by apply Hbare. }
  unfold value, after_value.
  destruct v as [|q v']; [exact Hskip|].
  destruct (is_quote q) eqn:Hq; [|exact Hskip].
  destruct (after_closing q v') as [rest|] eqn:Hclose; [|exact Hskip].
  apply after_closing_prefix in Hclose as (l & -> & Hl).
  change (q :: l ++ q :: rest) with ((q :: l) ++ [q] ++ rest).
  rewrite app_assoc, take_all_but.
  apply Forall_app. split; [apply Forall_cons; split|].
  - by apply is_quote_not_LF.
  - eapply Forall_impl; [exact Hl|exact line_terminator_not_LF].
  - apply Forall_singleton. by apply is_quote_not_LF.
Qed.

Lemma param_here_value s g : param_here s = Some g -> exists v, g = value v.
Proof.
  unfold param_here.
  destruct (strip_prefix fname s) as [r|]; [|discriminate].
  destruct (skip class1 r) as [|e v]; [discriminate|].
  destruct (Ascii.eqb "="%char e); [|discriminate].
  intros [= <-]. by exists v.
Qed.

Lemma param_value s g : param s = Some g -> exists v, g = value v.
Proof.
  induction s as [|c s IH]; cbn [param].
  - destruct (param_here []) as [g'|] eqn:H; [|discriminate].
    intros [= <-]. by apply param_here_value in H.
  - destruct (param_here (c :: s)) as [g'|] eqn:H; [|exact IH].
    intros [= <-]. by apply param_here_value in H.
Qed.

(** X17: whatever the header says, the name of the download is either the
    default of the script or a text without quote characters and without line
    feeds. *)
Theorem download_name_has_no_quote_or_line_feed
    (fallback : string) (disposition : option string) :
  download_name fallback disposition = fallback
  \/ Forall (fun c => is_quote c = false /\ c ≠ LF)
       (chars (download_name fallback disposition)).
Proof.
  destruct disposition as [d|]; [|by left].
  rewrite download_name_param.
  destruct (negb (String.eqb d "") && includes d "attachment"); [|by left].
  destruct (param (chars d)) as [[|c g]|] eqn:Hp; [by left| |by left].
  right. rewrite String.list_ascii_of_string_of_list_ascii.
  apply param_value in Hp as [v Hv].
  pose proof (value_no_LF v) as Hlf. rewrite <- Hv in Hlf.
  rewrite Forall_forall in Hlf. apply Forall_forall. intros x Hx.
  apply list_elem_of_filter in Hx as [Hq Hx]. split; [exact Hq|by apply Hlf].
Qed.

(** X18: the parameter is recognised with anything but a semicolon, an equals
    sign and a line feed between the word filename and the equals sign; and a
    value that does not open with a quote is a bare token, from which the
    quotes are deleted. So the extended form of RFC 5987,
    [filename*=UTF-8''report.pdf], is read as such a token and the file is
    saved as 'UTF-8report.pdf': the charset is not decoded away, it becomes
    part of the name. *)
Theorem download_name_extended_parameter
    (fallback pre mid : string) (c : ascii) (tok post : string) :
  let d := pre +:+ "filename" +:+ mid +:+ "=" +:+ String.String c tok +:+ post in
  includes d "attachment" = true ->
  "="%char ∉ chars pre ->
  Forall (fun x => in_class true [";"%char; "="%char; LF] x = true) (chars mid) ->
  is_quote c = false ->
  Forall (fun x => in_class true [";"%char; LF] x = true)
    (chars (String.String c tok)) ->
  (post = "" \/ exists x post',
      post = String.String x post'
      /\ in_class true [";"%char; LF] x = false) ->
  download_name fallback (Some d)
  = of_chars (filter (fun x => is_quote x = false) (chars (String.String c tok))).
Proof.
  intros d Hatt Hpre Hmid Hc Htok Hpost.
  rewrite download_name_param, Hatt.
  rewrite (includes_nonempty _ _ Hatt) by done. cbn [negb andb].
  subst d. rewrite !chars_app.
  change (chars "=" ++ chars (String.String c tok) ++ chars post)
    with ("="%char :: (c :: chars tok) ++ chars post).
  rewrite param_first_equals_run by done.
  rewrite value_token; [reflexivity|exact Hc|exact Htok|].
  destruct Hpost as [->|(x & post' & -> & Hx)]; [by left|].
  right. by exists x, (chars post').
Qed.

Lemma download_name_extended_parameter_witness :
  includes header_extended "attachment" = true
  /\ download_name "artifacts_report.pdf" (Some header_extended)
     = "UTF-8report.pdf".
Proof.
  assert (Hatt : includes header_extended "attachment" = true) by reflexivity.
  split; [exact Hatt|].
  refine (download_name_extended_parameter "artifacts_report.pdf"
            "attachment; " "*" "U" "TF-8''report.pdf" "" Hatt _ _ eq_refl _
            (or_introl eq_refl)).
  - vm_compute. intros H.
    repeat (apply elem_of_cons in H as [H|H]; [discriminate H|]).
    by apply elem_of_nil in H.
  - vm_compute. by repeat constructor.
  - vm_compute. by repeat constructor.
Defined.

End DownloadNameShape.

(** ** Refreshes that run in the background *)

Section BackgroundRefresh.











End BackgroundRefresh.
